(** * The crimson mClock scheduler facade, embedded from
      src/crimson/osd/scheduler/mclock_scheduler.cc

    The development follows the translation unit top to bottom: the
    constructor's cut-off selector, [ClientRegistry], the capacity
    parameters, the profile defaults, [calc_scaled_cost], the
    enqueue / dequeue paths over the high-priority bypass, and the
    configuration observer.

    C++ [double] is IEEE binary64 and is modelled by Rocq's primitive
    [float]; integers are [Z] with the width written out where a
    conversion happens; [std::string] is [string].

    A second part, [BucketIndex], embeds the naming of the bucket index
    objects from src/rgw/services/svc_bi_rados.cc. *)

From Stdlib Require Import ZArith List String Ascii Bool Floats DecimalString Lia.
From stdpp Require Import gmap strings vector.

Set Warnings "-inexact-float".
Local Open Scope string_scope.
Local Open Scope Z_scope.

(** ** Outcomes

    Code that can hit [ceph_assert] / [assert] terminates the process;
    one conversion below is undefined in C++ outside its range.  Both
    are outcomes of their own, distinct from a returned value. *)

Inductive result (A : Type) : Type :=
| Ok (a : A)
| Abort (what : string)
| Undefined (what : string).

Arguments Ok {A} a.
Arguments Abort {A} what.
Arguments Undefined {A} what.

#[global] Instance result_ret : MRet result := fun _ a => Ok a.
#[global] Instance result_bind : MBind result := fun _ _ k m =>
  match m with
  | Ok a => k a
  | Abort w => Abort w
  | Undefined w => Undefined w
  end.

(** ** C++ arithmetic on [double] and the integer conversions used *)

Module Cxx.

(** [if (x)] on a double: true unless [x == 0.0] (so true for NaN,
    false for both zeros). *)
Definition truthy (x : float) : bool := negb (PrimFloat.eqb x 0%float).

(** [std::max<double>(a, b)], i.e. [(a < b) ? b : a]. *)
Definition max_double (a b : float) : float :=
  if PrimFloat.ltb a b then b else a.

(** [static_cast<double>(n)] for an unsigned integer: the nearest
    binary64, ties to even. *)
Definition double_of_unsigned (n : Z) : float :=
  SF2Prim (binary_normalize prec emax n 0 false).

(** [static_cast<uint32_t>(x)]: the value truncated toward zero when
    that is representable in 32 bits; undefined otherwise (NaN,
    infinities, -1 and below, 2^32 and above). *)
Definition uint32_of_double (x : float) : option Z :=
  match Prim2SF x with
  | S754_zero _ => Some 0
  | S754_finite s m e =>
      let t := Z.shiftl (Z.pos m) e in
      if s then (if t =? 0 then Some 0 else None)
      else if t <? 2 ^ 32 then Some t else None
  | S754_infinity _ | S754_nan => None
  end.

(** [static_cast<uint32_t>(n)] for a signed [int]: reduction modulo 2^32. *)
Definition uint32_of_int (n : Z) : Z := n mod 2 ^ 32.

(** [std::to_string] on an unsigned integer. *)
Definition to_string_unsigned (n : Z) : string :=
  NilZero.string_of_uint (N.to_uint (Z.to_N n)).

(** The six digits after the point, zero padded. *)
Definition six_digits (n : Z) : string :=
  match to_string_unsigned (1000000 + n) with
  | String _ s => s
  | EmptyString => EmptyString
  end.

(** The exact value [m * 2^e * 10^6] rounded to an integer, ties to even. *)
Definition micro_units (m : positive) (e : Z) : Z :=
  if 0 <=? e then Z.pos m * 2 ^ e * 1000000
  else
    let n := Z.pos m * 1000000 in
    let d := 2 ^ (- e) in
    let q := n / d in
    let r := n mod d in
    if 2 * r <? d then q
    else if d <? 2 * r then q + 1
    else if Z.even q then q else q + 1.

(** [std::to_string] on a double: [printf]'s ["%f"]. *)
Definition to_string_double (x : float) : string :=
  match Prim2SF x with
  | S754_nan => "nan"
  | S754_infinity s => if s then "-inf" else "inf"
  | S754_zero s => (if s then "-" else "") ++ "0.000000"
  | S754_finite s m e =>
      let u := micro_units m e in
      (if s then "-" else "")
        ++ to_string_unsigned (u / 1000000) ++ "." ++ six_digits (u mod 1000000)
  end.

End Cxx.

(** ** The configuration store

    [ConfigProxy] is declared outside this translation unit; the code
    only reads options at a fixed type and writes defaults as text, so
    the store is an interface.  An option of the schema always has a
    value of its declared type, hence the total getters. *)

Class ConfigProxy (C : Type) := {
  (** [conf.get_val<double>(key)] *)
  get_val_double : C -> string -> float;
  (** [conf.get_val<uint64_t>(key)] *)
  get_val_uint64 : C -> string -> Z;
  (** [conf.get_val<Option::size_t>(key)] *)
  get_val_size : C -> string -> Z;
  (** [conf.get_val<std::string>(key)] *)
  get_val_string : C -> string -> string;
  (** [conf.set_val_default_sync(key, text)] *)
  set_val_default_sync : string -> string -> C -> C
}.

(** ** Scheduler classes and ids *)

(** Modelled from the spec: [scheduler_class_t], [client_profile_id_t]
    and [scheduler_id_t] are declared in scheduler.h, which is not among
    the sources.  The spec names the four classes and keys a scheduler id
    by (class, client_profile_id); the two background classes come first
    so that each indexes its own slot of [internal_client_infos]. *)
Inductive scheduler_class_t : Type :=
| background_recovery
| background_best_effort
| immediate
| client.

#[global] Instance scheduler_class_eq_dec : EqDecision scheduler_class_t.
Proof. solve_decision. Defined.

(** [static_cast<size_t>(class)] *)
Definition class_index (c : scheduler_class_t) : nat :=
  match c with
  | background_recovery => 0
  | background_best_effort => 1
  | immediate => 2
  | client => 3
  end.

Definition client_profile_id_t : Type := Z.

Record scheduler_id_t : Type := {
  class_id : scheduler_class_t;
  client_profile_id : client_profile_id_t
}.

(** ** ClientRegistry *)

(** Modelled from the spec: [dmc::ClientInfo] belongs to the dmclock
    library; the spec gives it as (reservation: f64, weight: u64,
    limit: f64), and [update] overwrites the three. *)
Record ClientInfo : Type := {
  reservation : float;
  weight : Z;
  limit : float
}.

Definition ClientInfo_update (res : float) (wgt : Z) (lim : float)
    (_ : ClientInfo) : ClientInfo :=
  {| reservation := res; weight := wgt; limit := lim |}.

(** Modelled from the spec: the members of [ClientRegistry] are declared
    in mclock_scheduler.h.  One [ClientInfo] per internal class in a
    fixed array, the default external entry, and the sparse table of
    external clients. *)
Record ClientRegistry : Type := {
  internal_client_infos : vec ClientInfo 2;
  default_external_client_info : ClientInfo;
  external_client_infos : gmap client_profile_id_t ClientInfo
}.

(** [static_cast<size_t>(scheduler_class_t::background_recovery)] and
    [static_cast<size_t>(scheduler_class_t::background_best_effort)] as
    indices into the array. *)
Definition slot_recovery : fin 2 := 0%fin.
Definition slot_best_effort : fin 2 := 1%fin.

(** The three options [update_from_config] reads for one class. *)
Record qos_keys : Type := {
  res_key : string;
  wgt_key : string;
  lim_key : string
}.

Definition client_keys : qos_keys :=
  {| res_key := "osd_mclock_scheduler_client_res";
     wgt_key := "osd_mclock_scheduler_client_wgt";
     lim_key := "osd_mclock_scheduler_client_lim" |}.

Definition background_recovery_keys : qos_keys :=
  {| res_key := "osd_mclock_scheduler_background_recovery_res";
     wgt_key := "osd_mclock_scheduler_background_recovery_wgt";
     lim_key := "osd_mclock_scheduler_background_recovery_lim" |}.

Definition background_best_effort_keys : qos_keys :=
  {| res_key := "osd_mclock_scheduler_background_best_effort_res";
     wgt_key := "osd_mclock_scheduler_background_best_effort_wgt";
     lim_key := "osd_mclock_scheduler_background_best_effort_lim" |}.

Section Registry.

(** [default_min] and [default_max] are constants of mclock_scheduler.h;
    everything below holds for whatever they are. *)
Variables default_min default_max : float.

Context {C : Type} `{ConfigProxy C}.

(** The lambda [get_res] of [update_from_config]. *)
Definition get_res (capacity_per_shard res : float) : float :=
  if Cxx.truthy res then (res * capacity_per_shard)%float else default_min.

(** The lambda [get_lim] of [update_from_config]. *)
Definition get_lim (capacity_per_shard lim : float) : float :=
  if Cxx.truthy lim then (lim * capacity_per_shard)%float else default_max.

(** One block of [update_from_config]: read [res], [lim] and [wgt] of a
    class and [update] its entry. *)
Definition configured_info (conf : C) (capacity_per_shard : float)
    (keys : qos_keys) (old : ClientInfo) : ClientInfo :=
  let res := get_val_double conf (res_key keys) in
  let lim := get_val_double conf (lim_key keys) in
  let wgt := get_val_uint64 conf (wgt_key keys) in
  ClientInfo_update
    (get_res capacity_per_shard res) wgt (get_lim capacity_per_shard lim) old.

Definition update_from_config (conf : C) (capacity_per_shard : float)
    (reg : ClientRegistry) : ClientRegistry :=
  (* Set external client infos *)
  let ext :=
    configured_info conf capacity_per_shard client_keys
      (default_external_client_info reg) in
  (* Set background recovery client infos *)
  let arr1 :=
    vinsert slot_recovery
      (configured_info conf capacity_per_shard background_recovery_keys
         (internal_client_infos reg !!! slot_recovery))
      (internal_client_infos reg) in
  (* Set background best effort client infos *)
  let arr2 :=
    vinsert slot_best_effort
      (configured_info conf capacity_per_shard background_best_effort_keys
         (arr1 !!! slot_best_effort))
      arr1 in
  {| internal_client_infos := arr2;
     default_external_client_info := ext;
     external_client_infos := external_client_infos reg |}.

(** The entries [update_from_config] writes, each with the options it
    is computed from. *)
Definition produced_entries (reg : ClientRegistry)
    : list (qos_keys * ClientInfo) :=
  [ (client_keys, default_external_client_info reg);
    (background_recovery_keys, internal_client_infos reg !!! slot_recovery);
    (background_best_effort_keys, internal_client_infos reg !!! slot_best_effort) ].

End Registry.

Definition get_external_client (reg : ClientRegistry)
    (client : client_profile_id_t) : ClientInfo :=
  match external_client_infos reg !! client with
  | None => default_external_client_info reg
  | Some info => info
  end.

Definition get_info (reg : ClientRegistry) (id : scheduler_id_t)
    : result ClientInfo :=
  match class_id id with
  | immediate => Abort "Cannot schedule immediate"
  | client => Ok (get_external_client reg (client_profile_id id))
  | c =>
      match decide (class_index c < 2)%nat with
      | left inb => Ok (internal_client_infos reg !!! nat_to_fin inb)
      | right _ =>
          Abort "static_cast<size_t>(id.class_id) < internal_client_infos.size()"
      end
  end.


(** ** Work items and the dmclock queue *)

(** Modelled from the spec: [item_t] is declared in scheduler.h.  The
    spec gives a work item as an opaque payload with a message priority
    (u32), a declared cost (i32), a class and, for clients, the profile
    id of its owner. *)
Record item_t : Type := {
  payload : nat;
  get_priority : Z;
  get_cost : Z;
  klass : scheduler_class_t;
  owner : client_profile_id_t
}.

(** Modelled from the spec: [get_scheduler_id] is declared in
    mclock_scheduler.h; the spec's [scheduler_id_of(item)] is the pair
    (class, client_profile_id). *)
Definition get_scheduler_id (item : item_t) : scheduler_id_t :=
  {| class_id := klass item; client_profile_id := owner item |}.

(** Modelled from the spec: [mclock_queue_t::PullReq] belongs to the
    dmclock library.  The spec gives the three results of a pull: a
    request (Retn), a time to retry at (Future), or empty (None). *)
Inductive PullReq : Type :=
| PullReq_none
| PullReq_future (when : float)
| PullReq_returning (request : item_t).

(** The dmclock pull queue is a library type; the facade uses three of
    its operations.  [pull_request] reads the queue's clock, which is
    part of the queue here. *)
Class TagEngine (E : Type) := {
  (** the constructor, from the anticipation timeout *)
  make_queue : float -> E;
  (** [scheduler.add_request(std::move(item), id, cost)] *)
  add_request : item_t -> scheduler_id_t -> Z -> E -> E;
  (** [scheduler.pull_request()] *)
  pull_request : E -> PullReq * E
}.

(** Modelled from the spec: [WorkItem] is declared in scheduler.h.  The
    spec gives what [dequeue] hands out as a work item or a time to
    sleep until. *)
Inductive WorkItem : Type :=
| WorkItem_item (item : item_t)
| WorkItem_time (when : float).

(** ** The high-priority bypass *)

(** Modelled from the spec: [SubQueue] is declared in mclock_scheduler.h.
    The spec gives it as an ordered mapping from priority to a list of
    items that iterates from the highest priority down; it is kept here
    as the sequence of its entries in iteration order.  A bucket is
    listed front first. *)
Definition SubQueue : Type := list (Z * list item_t).

(** [q[priority]] followed by an update [f] of the bucket found or
    created there. *)
Fixpoint subqueue_at (priority : Z) (f : list item_t -> list item_t)
    (q : SubQueue) : SubQueue :=
  match q with
  | [] => [(priority, f [])]
  | (p, bucket) :: rest =>
      if p =? priority then (p, f bucket) :: rest
      else if p <? priority then (priority, f []) :: (p, bucket) :: rest
      else (p, bucket) :: subqueue_at priority f rest
  end.

(** [q.find(priority)], as the bucket. *)
Fixpoint subqueue_find (priority : Z) (q : SubQueue) : option (list item_t) :=
  match q with
  | [] => None
  | (p, bucket) :: rest =>
      if p =? priority then Some bucket else subqueue_find priority rest
  end.

Definition push_front (x : item_t) (l : list item_t) : list item_t := x :: l.
Definition push_back (x : item_t) (l : list item_t) : list item_t := l ++ [x].

(** [back()] and [pop_back()] together: the last element and the rest,
    nothing for an empty list. *)
Fixpoint pop_back (l : list item_t) : option (list item_t * item_t) :=
  match l with
  | [] => None
  | x :: tl =>
      match pop_back tl with
      | None => Some ([], x)
      | Some (init, y) => Some (x :: init, y)
      end
  end.

(** The invariant the source states for [high_priority]: entries are
    never empty; together with the ordering of the map's keys. *)
Fixpoint keys_below (bound : Z) (q : SubQueue) : Prop :=
  match q with
  | [] => True
  | (p, _) :: rest => p < bound /\ keys_below p rest
  end.

Definition subqueue_sorted (q : SubQueue) : Prop :=
  match q with
  | [] => True
  | (p, _) :: rest => keys_below p rest
  end.

Definition subqueue_wf (q : SubQueue) : Prop :=
  subqueue_sorted q /\ Forall (fun e => snd e <> []) q.

(** The bucket at a priority, empty when the map has no such key. *)
Definition bucket (q : SubQueue) (priority : Z) : list item_t :=
  default [] (subqueue_find priority q).

(** The order in which [dequeue] empties a bypass: bucket after
    bucket, each from its back. *)
Definition drain (q : SubQueue) : list item_t :=
  concat (map (fun e => rev (snd e)) q).

(** The entries above and below a priority. *)
Definition above (priority : Z) (q : SubQueue) : SubQueue :=
  List.filter (fun e => priority <? fst e) q.

Definition below (priority : Z) (q : SubQueue) : SubQueue :=
  List.filter (fun e => fst e <? priority) q.

(** ** Profiles *)

Module profile_t.

Record client_config_t : Type := {
  reservation : float;
  weight : Z;
  limit : float
}.

Record t : Type := {
  client : client_config_t;
  background_recovery : client_config_t;
  background_best_effort : client_config_t
}.

End profile_t.

Definition high_client_ops_profile : profile_t.t :=
  {| profile_t.client :=
       {| profile_t.reservation := 0.6; profile_t.weight := 2; profile_t.limit := 0 |};
     profile_t.background_recovery :=
       {| profile_t.reservation := 0.4; profile_t.weight := 1; profile_t.limit := 0 |};
     profile_t.background_best_effort :=
       {| profile_t.reservation := 0; profile_t.weight := 1; profile_t.limit := 0.7 |} |}.

Definition high_recovery_ops_profile : profile_t.t :=
  {| profile_t.client :=
       {| profile_t.reservation := 0.3; profile_t.weight := 1; profile_t.limit := 0 |};
     profile_t.background_recovery :=
       {| profile_t.reservation := 0.7; profile_t.weight := 2; profile_t.limit := 0 |};
     profile_t.background_best_effort :=
       {| profile_t.reservation := 0; profile_t.weight := 1; profile_t.limit := 0 |} |}.

Definition balanced_profile : profile_t.t :=
  {| profile_t.client :=
       {| profile_t.reservation := 0.5; profile_t.weight := 1; profile_t.limit := 0 |};
     profile_t.background_recovery :=
       {| profile_t.reservation := 0.5; profile_t.weight := 1; profile_t.limit := 0 |};
     profile_t.background_best_effort :=
       {| profile_t.reservation := 0; profile_t.weight := 1; profile_t.limit := 0.9 |} |}.

(** The calls [set_config(key, val)] that close
    [set_config_defaults_from_profile], in the order written (the first
    one is written twice), each with the text [std::to_string(val)]. *)
Definition profile_settings (p : profile_t.t) : list (string * string) :=
  let d := Cxx.to_string_double in
  let u := Cxx.to_string_unsigned in
  [ ("osd_mclock_scheduler_client_res", d (profile_t.reservation (profile_t.client p)));
    ("osd_mclock_scheduler_client_res", d (profile_t.reservation (profile_t.client p)));
    ("osd_mclock_scheduler_client_wgt", u (profile_t.weight (profile_t.client p)));
    ("osd_mclock_scheduler_client_lim", d (profile_t.limit (profile_t.client p)));
    ("osd_mclock_scheduler_background_recovery_res",
      d (profile_t.reservation (profile_t.background_recovery p)));
    ("osd_mclock_scheduler_background_recovery_wgt",
      u (profile_t.weight (profile_t.background_recovery p)));
    ("osd_mclock_scheduler_background_recovery_lim",
      d (profile_t.limit (profile_t.background_recovery p)));
    ("osd_mclock_scheduler_background_best_effort_res",
      d (profile_t.reservation (profile_t.background_best_effort p)));
    ("osd_mclock_scheduler_background_best_effort_wgt",
      u (profile_t.weight (profile_t.background_best_effort p)));
    ("osd_mclock_scheduler_background_best_effort_lim",
      d (profile_t.limit (profile_t.background_best_effort p))) ].

(** The built-in profiles by the name that selects them. *)
Definition builtin_profiles : list (string * profile_t.t) :=
  [ ("high_client_ops", high_client_ops_profile);
    ("high_recovery_ops", high_recovery_ops_profile);
    ("balanced", balanced_profile) ].




(** The branch on [osd_mclock_profile]: a built-in profile, [custom]
    (nothing to set), or no such profile. *)
Inductive profile_choice : Type :=
| use_profile (p : profile_t.t)
| profile_custom
| profile_invalid.

Definition choose_profile (mclock_profile : string) : profile_choice :=
  if String.eqb mclock_profile "high_client_ops" then use_profile high_client_ops_profile
  else if String.eqb mclock_profile "high_recovery_ops" then use_profile high_recovery_ops_profile
  else if String.eqb mclock_profile "balanced" then use_profile balanced_profile
  else if String.eqb mclock_profile "custom" then profile_custom
  else profile_invalid.

(** The lambda [get_op_queue_cut_off] of the constructor; [random_word]
    is what [random_gen()] returns. *)
Definition get_op_queue_cut_off (prio_low prio_high : Z)
    (osd_op_queue_cut_off : string) (random_word : Z) : Z :=
  if String.eqb osd_op_queue_cut_off "debug_random" then
    (if random_word mod 2 <? 1 then prio_high else prio_low)
  else if String.eqb osd_op_queue_cut_off "high" then prio_high
  else (* default / catch-all is 'low' *) prio_low.

(** The keys of [qos_params] in [handle_conf_change]. *)
Definition qos_params : list string :=
  [ "osd_mclock_scheduler_client_res";
    "osd_mclock_scheduler_client_wgt";
    "osd_mclock_scheduler_client_lim";
    "osd_mclock_scheduler_background_recovery_res";
    "osd_mclock_scheduler_background_recovery_wgt";
    "osd_mclock_scheduler_background_recovery_lim";
    "osd_mclock_scheduler_background_best_effort_res";
    "osd_mclock_scheduler_background_best_effort_wgt";
    "osd_mclock_scheduler_background_best_effort_lim" ].

(** [changed.count(key)] as a truth value. *)
Definition count (changed : gset string) (key : string) : bool :=
  bool_decide (key ∈ changed).

(** The lambda [get_changed_key]: the first QoS key found in [changed]. *)
Definition get_changed_key (changed : gset string) : option string :=
  List.find (count changed) qos_params.

(** Some capacity option is in [changed]. *)
Definition capacity_changed (changed : gset string) : bool :=
  count changed "osd_mclock_max_capacity_iops_hdd"
  || count changed "osd_mclock_max_capacity_iops_ssd"
  || count changed "osd_mclock_max_sequential_bandwidth_hdd"
  || count changed "osd_mclock_max_sequential_bandwidth_ssd".

(** ** The scheduler *)

Section Scheduler.

(** Constants of headers that are not among the sources:
    [default_min] / [default_max] (mclock_scheduler.h) and the message
    priorities [CEPH_MSG_PRIO_LOW] / [CEPH_MSG_PRIO_HIGH] (msgr.h). *)
Variables default_min default_max : float.
Variables CEPH_MSG_PRIO_LOW CEPH_MSG_PRIO_HIGH : Z.

Context {C E : Type} `{ConfigProxy C} `{TagEngine E}.

(** The data members the translation unit reads or writes.  [cct_conf]
    is [cct->_conf], the store the observer is registered on (and the
    [conf] that [handle_conf_change] is called with). *)
Record mClockScheduler : Type := {
  cct_conf : C;
  whoami : Z;
  num_shards : Z;
  shard_id : Z;
  is_rotational : bool;
  cutoff_priority : Z;
  osd_bandwidth_cost_per_io : float;
  osd_bandwidth_capacity_per_shard : float;
  client_registry : ClientRegistry;
  scheduler : E;
  high_priority : SubQueue;
  immediate_class_priority : Z
}.

Definition with_conf (c : C) (st : mClockScheduler) : mClockScheduler :=
  {| cct_conf := c; whoami := whoami st; num_shards := num_shards st;
     shard_id := shard_id st; is_rotational := is_rotational st;
     cutoff_priority := cutoff_priority st;
     osd_bandwidth_cost_per_io := osd_bandwidth_cost_per_io st;
     osd_bandwidth_capacity_per_shard := osd_bandwidth_capacity_per_shard st;
     client_registry := client_registry st; scheduler := scheduler st;
     high_priority := high_priority st;
     immediate_class_priority := immediate_class_priority st |}.

Definition with_capacity (cost_per_io capacity_per_shard : float)
    (st : mClockScheduler) : mClockScheduler :=
  {| cct_conf := cct_conf st; whoami := whoami st; num_shards := num_shards st;
     shard_id := shard_id st; is_rotational := is_rotational st;
     cutoff_priority := cutoff_priority st;
     osd_bandwidth_cost_per_io := cost_per_io;
     osd_bandwidth_capacity_per_shard := capacity_per_shard;
     client_registry := client_registry st; scheduler := scheduler st;
     high_priority := high_priority st;
     immediate_class_priority := immediate_class_priority st |}.

Definition with_registry (reg : ClientRegistry)
    (st : mClockScheduler) : mClockScheduler :=
  {| cct_conf := cct_conf st; whoami := whoami st; num_shards := num_shards st;
     shard_id := shard_id st; is_rotational := is_rotational st;
     cutoff_priority := cutoff_priority st;
     osd_bandwidth_cost_per_io := osd_bandwidth_cost_per_io st;
     osd_bandwidth_capacity_per_shard := osd_bandwidth_capacity_per_shard st;
     client_registry := reg; scheduler := scheduler st;
     high_priority := high_priority st;
     immediate_class_priority := immediate_class_priority st |}.

Definition with_scheduler (e : E) (st : mClockScheduler) : mClockScheduler :=
  {| cct_conf := cct_conf st; whoami := whoami st; num_shards := num_shards st;
     shard_id := shard_id st; is_rotational := is_rotational st;
     cutoff_priority := cutoff_priority st;
     osd_bandwidth_cost_per_io := osd_bandwidth_cost_per_io st;
     osd_bandwidth_capacity_per_shard := osd_bandwidth_capacity_per_shard st;
     client_registry := client_registry st; scheduler := e;
     high_priority := high_priority st;
     immediate_class_priority := immediate_class_priority st |}.

Definition with_high_priority (q : SubQueue)
    (st : mClockScheduler) : mClockScheduler :=
  {| cct_conf := cct_conf st; whoami := whoami st; num_shards := num_shards st;
     shard_id := shard_id st; is_rotational := is_rotational st;
     cutoff_priority := cutoff_priority st;
     osd_bandwidth_cost_per_io := osd_bandwidth_cost_per_io st;
     osd_bandwidth_capacity_per_shard := osd_bandwidth_capacity_per_shard st;
     client_registry := client_registry st; scheduler := scheduler st;
     high_priority := q;
     immediate_class_priority := immediate_class_priority st |}.

(** [client_registry.update_from_config(conf, osd_bandwidth_capacity_per_shard)] *)
Definition refresh_registry (st : mClockScheduler) : mClockScheduler :=
  with_registry
    (update_from_config default_min default_max (cct_conf st)
       (osd_bandwidth_capacity_per_shard st) (client_registry st))
    st.

Definition set_osd_capacity_params_from_config
    (st : mClockScheduler) : mClockScheduler :=
  let conf := cct_conf st in
  let '(osd_bandwidth_capacity, osd_iop_capacity) :=
    if is_rotational st then
      (get_val_size conf "osd_mclock_max_sequential_bandwidth_hdd",
       get_val_double conf "osd_mclock_max_capacity_iops_hdd")
    else
      (get_val_size conf "osd_mclock_max_sequential_bandwidth_ssd",
       get_val_double conf "osd_mclock_max_capacity_iops_ssd") in
  let osd_bandwidth_capacity := Z.max 1 osd_bandwidth_capacity in
  let osd_iop_capacity := Cxx.max_double 1 osd_iop_capacity in
  with_capacity
    (Cxx.double_of_unsigned osd_bandwidth_capacity / osd_iop_capacity)%float
    (Cxx.double_of_unsigned osd_bandwidth_capacity
       / Cxx.double_of_unsigned (num_shards st))%float
    st.

(** The lambda [set_config], run over a list of calls. *)
Definition set_configs (settings : list (string * string)) (conf : C) : C :=
  fold_left (fun c kv => set_val_default_sync (fst kv) (snd kv) c) settings conf.

Definition set_config_defaults_from_profile
    (st : mClockScheduler) : result mClockScheduler :=
  (* Let only a single osd shard (id:0) set the profile configs *)
  if 0 <? shard_id st then Ok st
  else
    match choose_profile (get_val_string (cct_conf st) "osd_mclock_profile") with
    | use_profile profile =>
        Ok (with_conf (set_configs (profile_settings profile) (cct_conf st)) st)
    | profile_custom => Ok st
    | profile_invalid => Abort "Invalid choice of mclock profile"
    end.

Definition calc_scaled_cost (st : mClockScheduler) (item_cost : Z) : result Z :=
  let cost := Cxx.uint32_of_int (Z.max 1 item_cost) in
  match Cxx.uint32_of_double (osd_bandwidth_cost_per_io st) with
  | Some cost_per_io => Ok (Z.max cost cost_per_io)
  | None => Undefined "static_cast<uint32_t>(osd_bandwidth_cost_per_io)"
  end.

Definition enqueue_high (priority : Z) (item : item_t) (front : bool)
    (st : mClockScheduler) : mClockScheduler :=
  with_high_priority
    (subqueue_at priority
       (if front then push_back item else push_front item)
       (high_priority st))
    st.

Definition enqueue (item : item_t) (st : mClockScheduler)
    : result mClockScheduler :=
  let id := get_scheduler_id item in
  let priority := get_priority item in
  if decide (immediate = klass item) then
    Ok (enqueue_high (immediate_class_priority st) item false st)
  else if cutoff_priority st <=? priority then
    Ok (enqueue_high priority item false st)
  else
    cost ← calc_scaled_cost st (get_cost item);
    (* Add item to scheduler queue *)
    Ok (with_scheduler (add_request item id cost (scheduler st)) st).

Definition enqueue_front (item : item_t) (st : mClockScheduler)
    : mClockScheduler :=
  let priority := get_priority item in
  if decide (immediate = klass item) then
    enqueue_high (immediate_class_priority st) item true st
  else if cutoff_priority st <=? priority then
    enqueue_high priority item true st
  else
    (* mClock does not support enqueue at front, so we use
       the high queue with priority 0 *)
    enqueue_high 0 item true st.

Definition dequeue (st : mClockScheduler)
    : result (WorkItem * mClockScheduler) :=
  match high_priority st with
  | (priority, bucket) :: rest =>
      match pop_back bucket with
      | None => Abort "!iter->second.empty()"
      | Some (bucket', ret) =>
          Ok (WorkItem_item ret,
              with_high_priority
                (match bucket' with
                 | [] => rest
                 | _ :: _ => (priority, bucket') :: rest
                 end)
                st)
      end
  | [] =>
      let '(result, e) := pull_request (scheduler st) in
      match result with
      | PullReq_future when => Ok (WorkItem_time when, with_scheduler e st)
      | PullReq_none => Abort "Impossible, must have checked empty() first"
      | PullReq_returning request =>
          Ok (WorkItem_item request, with_scheduler e st)
      end
  end.

Definition handle_conf_change (changed : gset string)
    (st : mClockScheduler) : result mClockScheduler :=
  let st :=
    if count changed "osd_mclock_max_capacity_iops_hdd"
       || count changed "osd_mclock_max_capacity_iops_ssd"
    then refresh_registry (set_osd_capacity_params_from_config st)
    else st in
  let st :=
    if count changed "osd_mclock_max_sequential_bandwidth_hdd"
       || count changed "osd_mclock_max_sequential_bandwidth_ssd"
    then refresh_registry (set_osd_capacity_params_from_config st)
    else st in
  st ← (if count changed "osd_mclock_profile"
        then st' ← set_config_defaults_from_profile st; Ok (refresh_registry st')
        else Ok st);
  match get_changed_key changed with
  | Some key =>
      let mclock_profile := get_val_string (cct_conf st) "osd_mclock_profile" in
      if String.eqb mclock_profile "custom" then Ok (refresh_registry st)
      else Ok st
  | None => Ok st
  end.

(** The constructor.  [registry0] is the registry as its default member
    initialisers leave it and [immediate_prio] the initialiser of
    [immediate_class_priority] (both in mclock_scheduler.h);
    [random_word] is what the generator of [debug_random] yields. *)
Definition mClockScheduler_new (conf : C) (whoami_ : Z) (num_shards_ : Z)
    (shard_id_ : Z) (is_rotational_ : bool) (init_perfcounter : bool)
    (registry0 : ClientRegistry) (immediate_prio : Z) (random_word : Z)
    : result mClockScheduler :=
  let st :=
    {| cct_conf := conf; whoami := whoami_; num_shards := num_shards_;
       shard_id := shard_id_; is_rotational := is_rotational_;
       cutoff_priority := 0;
       osd_bandwidth_cost_per_io := 0;
       osd_bandwidth_capacity_per_shard := 0;
       client_registry := registry0;
       scheduler :=
         make_queue
           (get_val_double conf "osd_mclock_scheduler_anticipation_timeout");
       high_priority := [];
       immediate_class_priority := immediate_prio |} in
  if negb (0 <? num_shards_) then Abort "num_shards > 0"
  else
    let cutoff :=
      get_op_queue_cut_off CEPH_MSG_PRIO_LOW CEPH_MSG_PRIO_HIGH
        (get_val_string conf "osd_op_queue_cut_off") random_word in
    let st :=
      {| cct_conf := cct_conf st; whoami := whoami st;
         num_shards := num_shards st; shard_id := shard_id st;
         is_rotational := is_rotational st;
         cutoff_priority := cutoff;
         osd_bandwidth_cost_per_io := osd_bandwidth_cost_per_io st;
         osd_bandwidth_capacity_per_shard := osd_bandwidth_capacity_per_shard st;
         client_registry := client_registry st; scheduler := scheduler st;
         high_priority := high_priority st;
         immediate_class_priority := immediate_class_priority st |} in
    let st := set_osd_capacity_params_from_config st in
    st ← set_config_defaults_from_profile st;
    Ok (refresh_registry st).

(** *** Vocabulary of the statements *)

(** [item] went into the bypass at [priority]: it is at the front of
    that bucket, the other buckets are as they were, and the dmclock
    queue is as it was. *)
Definition in_bypass_at (priority : Z) (item : item_t)
    (st st' : mClockScheduler) : Prop :=
  scheduler st' = scheduler st
  /\ subqueue_find priority (high_priority st')
     = Some (item :: bucket (high_priority st) priority)
  /\ (forall p, p <> priority ->
        subqueue_find p (high_priority st') = subqueue_find p (high_priority st)).

(** [dequeue] called [n] times, with the items it returned in order. *)
Fixpoint dequeue_n (n : nat) (st : mClockScheduler)
    : result (list WorkItem * mClockScheduler) :=
  match n with
  | O => Ok ([], st)
  | S n' =>
      '(w, st1) ← dequeue st;
      '(ws, st2) ← dequeue_n n' st1;
      Ok (w :: ws, st2)
  end.

(** Admitting [xs] one after the other at one priority. *)
Definition enqueue_high_all (priority : Z) (front : bool) (xs : list item_t)
    (st : mClockScheduler) : mClockScheduler :=
  fold_left (fun s x => enqueue_high priority x front s) xs st.

(** The facade called on each of [xs] in turn. *)
Fixpoint enqueue_all (xs : list item_t) (st : mClockScheduler)
    : result mClockScheduler :=
  match xs with
  | [] => Ok st
  | x :: xs' => st1 ← enqueue x st; enqueue_all xs' st1
  end.

Definition enqueue_front_all (xs : list item_t) (st : mClockScheduler)
    : mClockScheduler :=
  fold_left (fun s x => enqueue_front x s) xs st.

(** The states a shard goes through: built by the constructor, then
    driven by the producers, the consumer and the observer (which is
    called after the store changed). *)
Inductive reachable : mClockScheduler -> Prop :=
| reachable_new conf whoami_ num_shards_ shard_id_ rot perf registry0 imm rnd st :
    mClockScheduler_new conf whoami_ num_shards_ shard_id_ rot perf registry0
      imm rnd = Ok st ->
    reachable st
| reachable_enqueue st item st' :
    reachable st -> enqueue item st = Ok st' -> reachable st'
| reachable_enqueue_front st item :
    reachable st -> reachable (enqueue_front item st)
| reachable_dequeue st w st' :
    reachable st -> dequeue st = Ok (w, st') -> reachable st'
| reachable_conf_change st conf' changed st' :
    reachable st ->
    handle_conf_change changed (with_conf conf' st) = Ok st' ->
    reachable st'.

End Scheduler.

(** ** Reference instances of the two interfaces

    A store that keeps every option as text, the operator's values over
    the defaults, and parses at the type asked for; and a queue that
    serves requests in arrival order.  They give the statements below
    concrete inputs to run on. *)

Module TextStore.

Record t : Type := {
  values : gmap string string;
  defaults : gmap string string
}.

Definition raw (c : t) (key : string) : string :=
  match values c !! key with
  | Some v => v
  | None => default "" (defaults c !! key)
  end.

Definition digit_of (a : ascii) : option Z :=
  let n := Z.of_nat (nat_of_ascii a) in
  if (48 <=? n) && (n <=? 57) then Some (n - 48) else None.

(** The digits of [s] as a number and the power of ten that counts the
    digits after the point. *)
Fixpoint scan (s : string) (after_point : bool) (acc scale : Z) : Z * Z :=
  match s with
  | EmptyString => (acc, scale)
  | String a s' =>
      match digit_of a with
      | Some d =>
          scan s' after_point (10 * acc + d)
            (if after_point then 10 * scale else scale)
      | None => scan s' (after_point || Ascii.eqb a ".") acc scale
      end
  end.

Definition parse_unsigned (s : string) : Z := fst (scan s false 0 1).

Definition parse_double (s : string) : float :=
  let '(n, scale) := scan s false 0 1 in
  let x := (Cxx.double_of_unsigned n / Cxx.double_of_unsigned scale)%float in
  match s with
  | String "-" _ => (- x)%float
  | _ => x
  end.

Definition set_default (key text : string) (c : t) : t :=
  {| values := values c; defaults := <[key := text]> (defaults c) |}.

Definition of_list (l : list (string * string)) : t :=
  {| values := list_to_map l; defaults := ∅ |}.

End TextStore.

#[global] Instance TextStore_ConfigProxy : ConfigProxy TextStore.t := {
  get_val_double c key := TextStore.parse_double (TextStore.raw c key);
  get_val_uint64 c key := TextStore.parse_unsigned (TextStore.raw c key);
  get_val_size c key := TextStore.parse_unsigned (TextStore.raw c key);
  get_val_string c key := TextStore.raw c key;
  set_val_default_sync := TextStore.set_default
}.

Module FifoQueue.

Definition t : Type := list (item_t * scheduler_id_t * Z).

Definition pull (q : t) : PullReq * t :=
  match q with
  | [] => (PullReq_none, [])
  | (item, _, _) :: rest => (PullReq_returning item, rest)
  end.

End FifoQueue.

#[global] Instance FifoQueue_TagEngine : TagEngine FifoQueue.t := {
  make_queue _ := [];
  add_request item id cost q := (q ++ [(item, id, cost)])%list;
  pull_request := FifoQueue.pull
}.

(** A store with the options the scheduler reads; the profile and the
    client's weight and reservation ratio vary. *)
Definition sample_conf (profile client_wgt client_res : string) : TextStore.t :=
  TextStore.of_list
    [ ("osd_op_queue_cut_off", "high");
      ("osd_mclock_profile", profile);
      ("osd_mclock_scheduler_anticipation_timeout", "0.0");
      ("osd_mclock_max_capacity_iops_hdd", "315.0");
      ("osd_mclock_max_capacity_iops_ssd", "21500.0");
      ("osd_mclock_max_sequential_bandwidth_hdd", "157286400");
      ("osd_mclock_max_sequential_bandwidth_ssd", "1258291200");
      ("osd_mclock_scheduler_client_res", client_res);
      ("osd_mclock_scheduler_client_wgt", client_wgt);
      ("osd_mclock_scheduler_client_lim", "0.0");
      ("osd_mclock_scheduler_background_recovery_res", "0.4");
      ("osd_mclock_scheduler_background_recovery_wgt", "1");
      ("osd_mclock_scheduler_background_recovery_lim", "0.0");
      ("osd_mclock_scheduler_background_best_effort_res", "0.0");
      ("osd_mclock_scheduler_background_best_effort_wgt", "1");
      ("osd_mclock_scheduler_background_best_effort_lim", "0.7") ].

Definition sample_registry : ClientRegistry :=
  let one := {| reservation := 1; weight := 1; limit := 1 |} in
  {| internal_client_infos := [# one; one];
     default_external_client_info := one;
     external_client_infos := ∅ |}.

Definition sample_item (n : nat) (prio cost : Z) (c : scheduler_class_t) : item_t :=
  {| payload := n; get_priority := prio; get_cost := cost; klass := c; owner := 0 |}.

(** A shard with an empty bypass and an empty dmclock queue. *)
Definition sample_scheduler (shard : Z) (profile : string)
    : mClockScheduler (C := TextStore.t) (E := FifoQueue.t) :=
  {| cct_conf := sample_conf profile "1" "0.6";
     whoami := 0; num_shards := 1; shard_id := shard; is_rotational := true;
     cutoff_priority := 196;
     osd_bandwidth_cost_per_io := 4096;
     osd_bandwidth_capacity_per_shard := 157286400;
     client_registry := sample_registry;
     scheduler := [];
     high_priority := [];
     immediate_class_priority := 2 ^ 32 - 1 |}.

(** Items for the sample shard (cut-off 196, cost per IO 4096). *)
Definition item_a : item_t := sample_item 1 200 1 client.
Definition item_b : item_t := sample_item 2 200 1 client.
Definition item_c : item_t := sample_item 3 64 1 client.
Definition item_now : item_t := sample_item 4 0 1 immediate.

Definition sample_bypass : mClockScheduler (C := TextStore.t) (E := FifoQueue.t) :=
  enqueue_high 64 item_c false
    (enqueue_high 200 item_b false
       (enqueue_high 200 item_a false (sample_scheduler 0 "balanced"))).

Definition sample_conf_cut_off (cut_off : string) : TextStore.t :=
  {| TextStore.values :=
       <["osd_op_queue_cut_off" := cut_off]>
         (TextStore.values (sample_conf "balanced" "1" "0.6"));
     TextStore.defaults := ∅ |}.

(** ** The rest of the translation unit: tracked keys, dump *)

(** [get_tracked_conf_keys]: the array [KEYS] up to its terminating
    [NULL]. *)
Definition get_tracked_conf_keys : list string :=
  [ "osd_mclock_scheduler_client_res";
    "osd_mclock_scheduler_client_wgt";
    "osd_mclock_scheduler_client_lim";
    "osd_mclock_scheduler_background_recovery_res";
    "osd_mclock_scheduler_background_recovery_wgt";
    "osd_mclock_scheduler_background_recovery_lim";
    "osd_mclock_scheduler_background_best_effort_res";
    "osd_mclock_scheduler_background_best_effort_wgt";
    "osd_mclock_scheduler_background_best_effort_lim";
    "osd_mclock_max_capacity_iops_hdd";
    "osd_mclock_max_capacity_iops_ssd";
    "osd_mclock_max_sequential_bandwidth_hdd";
    "osd_mclock_max_sequential_bandwidth_ssd";
    "osd_mclock_profile" ].

(** [ceph::Formatter] is an interface; [dump] is what it calls on it,
    in order. *)
Inductive FormatterCall : Type :=
| open_object_section (name : string)
| dump_int (name : string) (value : Z)
| dump_string (name : string) (value : string)
| close_section.

(** The gauges of the dmclock queue that [dump] reads, and the text its
    [display_queues] writes to a stream. *)
Class TagEngineGauges (E : Type) := {
  (** [scheduler.request_count()] *)
  request_count : E -> Z;
  (** [scheduler.client_count()] *)
  client_count : E -> Z;
  (** what [scheduler.display_queues(out)] writes to [out] *)
  display_queues_text : E -> string
}.

#[global] Instance scheduler_id_eq_dec : EqDecision scheduler_id_t.
Proof. solve_decision. Defined.

#[global] Instance FifoQueue_Gauges : TagEngineGauges FifoQueue.t := {
  request_count q := Z.of_nat (length q);
  client_count q := Z.of_nat (length (remove_dups (map (fun r => snd (fst r)) q)));
  display_queues_text _ := ""
}.

Section Dump.

Context {C E : Type} `{ConfigProxy C} `{TagEngine E} `{TagEngineGauges E}.

Definition display_queues (st : mClockScheduler (C := C) (E := E)) : string :=
  display_queues_text (scheduler st).

Definition dump (st : mClockScheduler (C := C) (E := E)) : list FormatterCall :=
  (* Display queue sizes *)
  ([ open_object_section "queue_sizes";
    dump_int "high_priority_queue" (Z.of_nat (length (high_priority st)));
    dump_int "scheduler" (request_count (scheduler st));
    close_section;
    (* client map and queue tops (res, wgt, lim) *)
    open_object_section "mClockClients";
    dump_int "client_count" (client_count (scheduler st));
    dump_string "clients" "";
    close_section;
    (* Display sorted queues (res, wgt, lim) *)
    open_object_section "mClockQueues";
    dump_string "queues" (display_queues st);
    close_section;
    open_object_section "HighPriorityQueue" ]
  ++ concat
       (map (fun e : Z * list item_t =>
               [ dump_int "priority" (fst e);
                 dump_int "queue_size" (Z.of_nat (length (snd e))) ])
            (high_priority st))
  ++ [ close_section ])%list.


(** The priority [enqueue_front] queues an item at. *)
Definition front_priority (st : mClockScheduler (C := C) (E := E))
    (item : item_t) : Z :=
  if decide (immediate = klass item) then immediate_class_priority st
  else if cutoff_priority st <=? get_priority item then get_priority item
  else 0.

End Dump.

(** The values a formatter was given under one name, in order. *)
Fixpoint ints_named (name : string) (calls : list FormatterCall) : list Z :=
  match calls with
  | [] => []
  | dump_int n v :: rest =>
      if String.eqb n name then v :: ints_named name rest
      else ints_named name rest
  | _ :: rest => ints_named name rest
  end.

(** The nesting depth after a run of calls from depth [d]; nothing when
    a section is closed that was not opened. *)
Fixpoint depth_after (d : nat) (calls : list FormatterCall) : option nat :=
  match calls with
  | [] => Some d
  | open_object_section _ :: rest => depth_after (S d) rest
  | close_section :: rest =>
      match d with
      | O => None
      | S d' => depth_after d' rest
      end
  | _ :: rest => depth_after d rest
  end.

(** The sample shard as the constructor builds it, and after two
    front-enqueues. *)
Definition sample_started : mClockScheduler (C := TextStore.t) (E := FifoQueue.t) :=
  match
    mClockScheduler_new 0 infinity 64 196 (sample_conf "balanced" "1" "0.6")
      0 1 0 true false sample_registry (2 ^ 32 - 1) 7
  with
  | Ok st => st
  | _ => sample_scheduler 0 "balanced"
  end.

Definition sample_running : mClockScheduler (C := TextStore.t) (E := FifoQueue.t) :=
  enqueue_front item_c (enqueue_front item_a sample_started).

(** The sample shard on a device reported with no bandwidth and no IOPS. *)
Definition zero_capacity_scheduler
    : mClockScheduler (C := TextStore.t) (E := FifoQueue.t) :=
  with_conf
    {| TextStore.values :=
         <["osd_mclock_max_sequential_bandwidth_hdd" := "0"]>
           (<["osd_mclock_max_capacity_iops_hdd" := "0.0"]>
              (TextStore.values (sample_conf "balanced" "1" "0.6")));
       TextStore.defaults := ∅ |}
    (sample_scheduler 0 "balanced").

(** The sample shard on a device reported with 1 TiB/s at one IO per
    second. *)
Definition huge_bandwidth_scheduler
    : mClockScheduler (C := TextStore.t) (E := FifoQueue.t) :=
  with_conf
    {| TextStore.values :=
         <["osd_mclock_max_sequential_bandwidth_hdd" := "1099511627776"]>
           (<["osd_mclock_max_capacity_iops_hdd" := "1.0"]>
              (TextStore.values (sample_conf "balanced" "1" "0.6")));
       TextStore.defaults := ∅ |}
    (sample_scheduler 0 "balanced").

(** * The names of the bucket index objects, embedded from
      src/rgw/services/svc_bi_rados.cc

    The part of the translation unit that does not talk to RADOS: how
    the objects of a bucket index and the bucket instance ids are named,
    which entries the [std::map<int, string>] results receive, and the
    status the entry points return.  A [std::map<int, string>] is a
    [gmap Z string]; an output parameter is an argument holding the old
    value and a component of the result holding the new one. *)

Module BucketIndex.

(** [static string dir_oid_prefix] *)
Definition dir_oid_prefix : string := ".dir.".

(** C++20 conversions between [int] and [uint32_t] are modular. *)
Definition to_uint32 (x : Z) : Z := x mod 2 ^ 32.

Definition to_int32 (x : Z) : Z :=
  let r := x mod 2 ^ 32 in
  if r <? 2 ^ 31 then r else r - 2 ^ 32.

(** What [%s] prints of [s.c_str()]: the characters before the first
    NUL. *)
Fixpoint c_str (s : string) : string :=
  match s with
  | EmptyString => EmptyString
  | String a s' => if Ascii.eqb a Ascii.zero then EmptyString
                   else String a (c_str s')
  end.

Definition digit (d : Z) : ascii := ascii_of_N (Z.to_N (48 + d)).

(** The decimal digits of a non-negative number, most significant
    first; [fuel] bounds the number of digits (20 for 64 bits, 10 for
    32 bits). *)
Fixpoint decimal (fuel : nat) (n : Z) : string :=
  match fuel with
  | O => EmptyString
  | S fuel' =>
      String.append (if n <? 10 then EmptyString else decimal fuel' (n / 10))
        (String (digit (n mod 10)) EmptyString)
  end.

(** [%" PRIu64 "] *)
Definition print_u64 (n : Z) : string := decimal 20 n.

(** [%d] given an [int] *)
Definition print_int (n : Z) : string :=
  if n <? 0 then String "-" (decimal 10 (- n)) else decimal 10 n.

(** [snprintf(buf, len, ...)] keeps at most [len - 1] characters of the
    formatted text and terminates them with a NUL; the value is the C
    string left in [buf]. *)
Definition snprintf (len : Z) (text : string) : string :=
  substring 0 (Z.to_nat (len - 1)) text.

(** [bucket_obj_with_generation]: [shard_id] is a [uint32_t] printed
    with [%d], which reads the same 32 bits as an [int].  The count the
    function returns, narrowed to [char], is used by no caller. *)
Definition bucket_obj_with_generation (len : Z) (bucket_oid_base : string)
    (gen_id shard_id : Z) : string :=
  snprintf len
    (c_str bucket_oid_base ++ "." ++ print_u64 gen_id ++ "."
     ++ print_int (to_int32 shard_id))%string.

Definition bucket_obj_without_generation (len : Z) (bucket_oid_base : string)
    (shard_id : Z) : string :=
  snprintf len
    (c_str bucket_oid_base ++ "." ++ print_int (to_int32 shard_id))%string.

(** The block the three callers repeat: [char buf[bucket_oid_base.size() + 64]],
    then one of the two formatters according to [if (gen_id)], then
    the buffer read back as a [std::string]. *)
Definition shard_object (bucket_oid_base : string) (gen_id shard_id : Z) : string :=
  let len := Z.of_nat (String.length bucket_oid_base) + 64 in
  if gen_id =? 0 then bucket_obj_without_generation len bucket_oid_base shard_id
  else bucket_obj_with_generation len bucket_oid_base gen_id shard_id.

(** [get_bucket_index_objects]; [num_shards] is a [uint32_t], [shard_id]
    an [int], the keys of the map are [int]s. *)
Definition get_bucket_index_objects (bucket_oid_base : string)
    (num_shards gen_id : Z) (bucket_objects : gmap Z string) (shard_id : Z)
    : gmap Z string :=
  if num_shards =? 0 then <[0 := bucket_oid_base]> bucket_objects
  else if shard_id <? 0 then
    fold_left
      (fun objs i => <[to_int32 i := shard_object bucket_oid_base gen_id i]> objs)
      (seqZ 0 num_shards) bucket_objects
  else if num_shards <? shard_id then bucket_objects
  else <[shard_id := shard_object bucket_oid_base gen_id (to_uint32 shard_id)]>
         bucket_objects.

(** [get_bucket_instance_ids]; here [num_shards] is an [int]. *)
Definition instance_id (plain_id : string) (shard_id : Z) : string :=
  (plain_id ++ snprintf 16 (":" ++ print_int shard_id))%string.

Definition get_bucket_instance_ids (name bucket_id : string)
    (num_shards shard_id : Z) (result : gmap Z string) : gmap Z string :=
  let plain_id := (name ++ ":" ++ bucket_id)%string in
  if num_shards =? 0 then <[0 := plain_id]> result
  else if shard_id <? 0 then
    fold_left (fun ids i => <[i := instance_id plain_id i]> ids)
      (seqZ 0 num_shards) result
  else if num_shards <? shard_id then result
  else <[shard_id := instance_id plain_id shard_id]> result.

(** [RGWSI_BucketIndex_RADOS::get_bucket_index_object], the overload
    that takes the shard; it assigns [*bucket_obj] on every path, so the
    new value is the result. *)
Definition get_bucket_index_object (bucket_oid_base : string)
    (num_shards gen_id shard_id : Z) : string :=
  if num_shards =? 0 then bucket_oid_base
  else shard_object bucket_oid_base gen_id (to_uint32 shard_id).

Section Entry.

(** [errno] values, the enumerator [rgw::BucketHashType::Mod] and the
    hash [bucket_shard_index] come from headers outside the translation
    unit. *)
Variables EIO ENOTSUP : Z.
Variable Mod : Z.
Variable bucket_shard_index : string -> Z -> Z.

(** [open_bucket_index_base]; [pool_ret] is what
    [open_bucket_index_pool] returned. *)
Definition open_bucket_index_base (pool_ret : Z) (bucket_id : string)
    (bucket_oid_base : string) : Z * string :=
  if pool_ret <? 0 then (pool_ret, bucket_oid_base)
  else if decide (bucket_id = EmptyString) then (- EIO, bucket_oid_base)
  else (0, (dir_oid_prefix ++ bucket_id)%string).

(** [open_bucket_index], the overload that fills the maps;
    [bucket_instance_ids] is [None] for a null pointer. *)
Definition open_bucket_index (pool_ret : Z) (name bucket_id : string)
    (_shard_id : option Z) (num_shards gen : Z)
    (bucket_objs : gmap Z string) (bucket_instance_ids : option (gmap Z string))
    : Z * gmap Z string * option (gmap Z string) :=
  let shard_id := default (-1) _shard_id in
  let '(ret, bucket_oid_base) :=
    open_bucket_index_base pool_ret bucket_id EmptyString in
  if ret <? 0 then (ret, bucket_objs, bucket_instance_ids)
  else
    (0,
     get_bucket_index_objects bucket_oid_base num_shards gen bucket_objs shard_id,
     get_bucket_instance_ids name bucket_id (to_int32 num_shards) shard_id
       <$> bucket_instance_ids).

(** [RGWSI_BucketIndex_RADOS::get_bucket_index_object], the overload
    that takes the object key; [shard_id] is [None] for a null
    pointer. *)
Definition get_bucket_index_object_for_key (bucket_oid_base : string)
    (hash_type num_shards gen_id : Z) (obj_key : string)
    (bucket_obj : string) (shard_id : option Z) : Z * string * option Z :=
  if hash_type =? Mod then
    if num_shards =? 0 then
      (0, bucket_oid_base, (fun _ => -1) <$> shard_id)
    else
      let sid := bucket_shard_index obj_key num_shards in
      (0, shard_object bucket_oid_base gen_id sid,
       (fun _ => to_int32 sid) <$> shard_id)
  else (- ENOTSUP, bucket_obj, shard_id).

(** [open_bucket_index_shard], first by object key, then by shard;
    [oid] is [bucket_obj->obj.oid]. *)
Definition open_bucket_index_shard_for_key (pool_ret : Z) (bucket_id : string)
    (hash_type num_shards gen : Z) (obj_key : string)
    (oid : string) (shard_id : option Z) : Z * string * option Z :=
  let '(ret, bucket_oid_base) :=
    open_bucket_index_base pool_ret bucket_id EmptyString in
  if ret <? 0 then (ret, oid, shard_id)
  else
    let '(ret, oid, shard_id) :=
      get_bucket_index_object_for_key bucket_oid_base hash_type num_shards gen
        obj_key oid shard_id in
    if ret <? 0 then (ret, oid, shard_id) else (0, oid, shard_id).

Definition open_bucket_index_shard (pool_ret : Z) (bucket_id : string)
    (num_shards gen shard_id : Z) (oid : string) : Z * string :=
  let '(ret, bucket_oid_base) :=
    open_bucket_index_base pool_ret bucket_id EmptyString in
  if ret <? 0 then (ret, oid)
  else (0, get_bucket_index_object bucket_oid_base num_shards gen shard_id).

(** [handle_overwrite].  The calls it makes on the bilog and datalog
    services are recorded in order; what those calls return is given by
    the environment: [log_stop_ret], [log_start_ret] and, per shard,
    [add_entry_ret].  A log layout is its type and its index layout;
    [rgw::BucketLogType::InIndex] and [rgw::num_shards], as an [int],
    come from a header outside the translation unit. *)
Inductive ServiceCall : Type :=
| log_stop
| log_start
| add_entry (shard_id : Z).

Variable InIndex : Z.
Variable index_layout : Type.
Variable rgw_num_shards : index_layout -> Z.

Definition handle_overwrite (new_sync_enabled old_sync_enabled : bool)
    (logs : list (Z * index_layout))
    (log_stop_ret log_start_ret : Z) (add_entry_ret : Z -> Z)
    : Z * list ServiceCall :=
  if Bool.eqb old_sync_enabled new_sync_enabled then (0, [])
  else
    match last logs with
    | None => (0, [])
    | Some bilog =>
        if negb (fst bilog =? InIndex) then (- ENOTSUP, [])
        else
          let shards_num := rgw_num_shards (snd bilog) in
          let '(ret, call) :=
            if negb new_sync_enabled then (log_stop_ret, log_stop)
            else (log_start_ret, log_start) in
          if ret <? 0 then (ret, [call])
          else
            fold_left
              (fun '(ret, calls) i => (add_entry_ret i, calls ++ [add_entry i])%list)
              (seqZ 0 shards_num) (ret, [call])
    end.

End Entry.

(** Reading a printed number back, for the statements about names. *)
Fixpoint digits_value (acc : Z) (s : string) : Z :=
  match s with
  | EmptyString => acc
  | String c s' => digits_value (10 * acc + (Z.of_N (N_of_ascii c) - 48)) s'
  end.

Definition is_digit (c : ascii) : bool :=
  (48 <=? N_of_ascii c)%N && (N_of_ascii c <=? 57)%N.

Fixpoint all_digits (s : string) : bool :=
  match s with
  | EmptyString => true
  | String c s' => is_digit c && all_digits s'
  end.

(** A stand-in for the hash of an object key, and a datalog that fails
    for shard 0 only. *)
Definition sample_shard_index (obj_key : string) (num_shards : Z) : Z :=
  Z.of_nat (String.length obj_key) mod num_shards.

Definition sample_add_entry_ret (shard_id : Z) : Z :=
  if shard_id =? 0 then -5 else 0.

End BucketIndex.

(** * Properties *)

Local Open Scope list_scope.

(** Run the binds of [result] that the goal shows. *)
Ltac run_bind := unfold mbind, result_bind; cbv beta iota.

(** ** Cost scaling *)

Section CostProperties.

Context {C E : Type} `{ConfigProxy C} `{TagEngine E}.

Lemma uint32_of_int_clamped (k : Z) :
  - 2 ^ 31 <= k < 2 ^ 31 ->
  Cxx.uint32_of_int (Z.max 1 k) = Z.max 1 k.
Proof.
  intros Hk. unfold Cxx.uint32_of_int.
  apply Z.mod_small. lia.
Qed.

Lemma uint32_of_double_range (x : float) (c : Z) :
  Cxx.uint32_of_double x = Some c -> 0 <= c < 2 ^ 32.
Proof.
  unfold Cxx.uint32_of_double.
  destruct (Prim2SF x) as [s|s| |s m e]; try discriminate.
  - intros [= <-]. lia.
  - destruct s.
    + destruct (Z.eqb_spec (Z.shiftl (Z.pos m) e) 0); [|discriminate].
      intros [= <-]. lia.
    + destruct (Z.ltb_spec (Z.shiftl (Z.pos m) e) (2 ^ 32)); [|discriminate].
      intros [= <-]. split; [|assumption].
      apply Z.shiftl_nonneg. lia.
Qed.

(** What [static_cast<uint32_t>] keeps of a positive double [m * 2^e]:
    the integer part. *)
Lemma uint32_of_double_truncates (x : float) (c : Z) (m : positive) (e : Z) :
  Cxx.uint32_of_double x = Some c ->
  Prim2SF x = S754_finite false m e ->
  c * 2 ^ Z.max 0 (- e) <= Z.pos m * 2 ^ Z.max 0 e
  < (c + 1) * 2 ^ Z.max 0 (- e).
Proof.
  unfold Cxx.uint32_of_double. intros Hc Hx. rewrite Hx in Hc.
  destruct (Z.shiftl (Z.pos m) e <? 2 ^ 32); [|discriminate].
  injection Hc as <-.
  destruct (Z.le_gt_cases 0 e) as [He|He].
  - rewrite Z.shiftl_mul_pow2 by exact He.
    rewrite (Z.max_l 0 (- e)), (Z.max_r 0 e) by lia.
    change (2 ^ 0) with 1. lia.
  - rewrite (Z.max_r 0 (- e)), (Z.max_l 0 e) by lia.
    change (2 ^ 0) with 1.
    replace (Z.shiftl (Z.pos m) e) with (Z.pos m / 2 ^ (- e))
      by (rewrite <- Z.shiftr_div_pow2, <- Z.shiftl_opp_r, Z.opp_involutive by lia;
          reflexivity).
    assert (Hd : 0 < 2 ^ (- e)) by (apply Z.pow_pos_nonneg; lia).
    pose proof (Z.mul_div_le (Z.pos m) _ Hd).
    pose proof (Z.mul_succ_div_gt (Z.pos m) _ Hd).
    lia.
Qed.

(** C4 as amended.  For every declared cost [k] of an [int],
    [calc_scaled_cost] returns the larger of [k] clamped to at least 1
    and [cost_per_io], which is [osd_bandwidth_cost_per_io] cut to its
    integer part by [static_cast<uint32_t>]: at most the double and
    less than 1 below it; so a zero or negative cost is charged
    [max 1 cost_per_io].  When the integer part does not fit 32 bits the
    conversion, and with it the charge, is undefined. *)
Theorem calc_scaled_cost_clamps
    (st : mClockScheduler (C := C) (E := E)) (k : Z) :
  - 2 ^ 31 <= k < 2 ^ 31 ->
  (forall cost_per_io,
     Cxx.uint32_of_double (osd_bandwidth_cost_per_io st) = Some cost_per_io ->
     calc_scaled_cost st k = Ok (Z.max (Z.max 1 k) cost_per_io)
     /\ (k <= 0 -> calc_scaled_cost st k = Ok (Z.max 1 cost_per_io))
     /\ (forall c, calc_scaled_cost st k = Ok c ->
           1 <= c /\ k <= c /\ cost_per_io <= c /\ c < 2 ^ 32)
     /\ (forall m e,
           Prim2SF (osd_bandwidth_cost_per_io st) = S754_finite false m e ->
           cost_per_io * 2 ^ Z.max 0 (- e) <= Z.pos m * 2 ^ Z.max 0 e
           < (cost_per_io + 1) * 2 ^ Z.max 0 (- e)))
  /\ (Cxx.uint32_of_double (osd_bandwidth_cost_per_io st) = None ->
      exists what, calc_scaled_cost st k = Undefined what).
Proof.
  intros Hk. split.
  - intros cost_per_io Hio.
    pose proof (uint32_of_double_range _ _ Hio) as Hrange.
    assert (Heq : calc_scaled_cost st k = Ok (Z.max (Z.max 1 k) cost_per_io)).
    { unfold calc_scaled_cost. rewrite Hio, uint32_of_int_clamped by exact Hk.
      reflexivity. }
    split; [exact Heq|]. split; [|split].
    + intros Hneg. rewrite Heq. f_equal. lia.
    + intros c. rewrite Heq. intros [= <-]. lia.
    + intros m e Hx. exact (uint32_of_double_truncates _ _ _ _ Hio Hx).
  - intros Hnone. unfold calc_scaled_cost. rewrite Hnone. eauto.
Qed.

End CostProperties.

Lemma calc_scaled_cost_clamps_witness :
  calc_scaled_cost (sample_scheduler 0 "balanced") (-7) = Ok 4096
  /\ calc_scaled_cost (sample_scheduler 0 "balanced") 0 = Ok 4096
  /\ calc_scaled_cost (sample_scheduler 0 "balanced") 65536 = Ok 65536.
Proof.
  assert (Hio : Cxx.uint32_of_double
                  (osd_bandwidth_cost_per_io (sample_scheduler 0 "balanced"))
                = Some 4096) by (vm_compute; reflexivity).
  pose proof (proj1 (calc_scaled_cost_clamps (sample_scheduler 0 "balanced") (-7)
                       ltac:(lia)) 4096 Hio) as [_ [Hneg _]].
  pose proof (proj1 (calc_scaled_cost_clamps (sample_scheduler 0 "balanced") 0
                       ltac:(lia)) 4096 Hio) as [_ [Hzero _]].
  pose proof (proj1 (calc_scaled_cost_clamps (sample_scheduler 0 "balanced") 65536
                       ltac:(lia)) 4096 Hio) as [Hbig _].
  split; [apply Hneg; lia | split; [apply Hzero; lia | exact Hbig]].
Defined.

(** C4 as stated fails.  With the capacity of the sample store
    (157286400 bytes per second at 315 IOPS) the cost of one IO is
    499321.90..., and an item of cost 0 is charged 499321, less than
    that; with 2^40 bytes per second at one IOPS the conversion is out
    of range and no charge is defined. *)
Lemma calc_scaled_cost_below_cost_per_io :
  calc_scaled_cost
    (set_osd_capacity_params_from_config (sample_scheduler 0 "balanced")) 0
  = Ok 499321
  /\ PrimFloat.ltb 499321
       (osd_bandwidth_cost_per_io
          (set_osd_capacity_params_from_config (sample_scheduler 0 "balanced")))
     = true
  /\ (exists what,
        calc_scaled_cost
          (set_osd_capacity_params_from_config huge_bandwidth_scheduler) 0
        = Undefined what).
Proof.
  split; [vm_compute; reflexivity|].
  split; [vm_compute; reflexivity|].
  eexists. vm_compute. reflexivity.
Qed.

(** ** ClientRegistry *)




Section RegistryProperties.

Variables default_min default_max : float.
Context {C : Type} `{ConfigProxy C}.

Lemma produced_entries_update (conf : C) (cap : float) (reg : ClientRegistry) :
  produced_entries (update_from_config default_min default_max conf cap reg) =
  map (fun keys =>
         (keys,
          {| reservation :=
               get_res default_min cap (get_val_double conf (res_key keys));
             weight := get_val_uint64 conf (wgt_key keys);
             limit :=
               get_lim default_max cap (get_val_double conf (lim_key keys)) |}))
      [client_keys; background_recovery_keys; background_best_effort_keys].
Proof.
  destruct reg as [arr ext tbl]. inv_vec arr. intros r b. reflexivity.
Qed.

Lemma update_from_config_idempotent (conf : C) (cap : float) (reg : ClientRegistry) :
  update_from_config default_min default_max conf cap
    (update_from_config default_min default_max conf cap reg)
  = update_from_config default_min default_max conf cap reg.
Proof.
  destruct reg as [arr ext tbl]. inv_vec arr. intros r b. reflexivity.
Qed.

(** C6.  [update_from_config] computes each entry from the configured
    values and [capacity_per_shard] alone: the weight is the configured
    one, a zero reservation ratio gives [default_min], a zero limit
    ratio gives [default_max], any other ratio gives ratio times
    capacity; the registry it is applied to does not matter, the table
    of external clients is kept, and a second call with the same
    configuration and capacity changes nothing. *)
Theorem update_from_config_pure (conf : C) (cap : float) (reg : ClientRegistry) :
  let reg' := update_from_config default_min default_max conf cap reg in
  Forall
    (fun e : qos_keys * ClientInfo =>
       let res := get_val_double conf (res_key (fst e)) in
       let lim := get_val_double conf (lim_key (fst e)) in
       weight (snd e) = get_val_uint64 conf (wgt_key (fst e))
       /\ (PrimFloat.eqb res 0 = true -> reservation (snd e) = default_min)
       /\ (PrimFloat.eqb res 0 = false -> reservation (snd e) = (res * cap)%float)
       /\ (PrimFloat.eqb lim 0 = true -> limit (snd e) = default_max)
       /\ (PrimFloat.eqb lim 0 = false -> limit (snd e) = (lim * cap)%float))
    (produced_entries reg')
  /\ (forall reg2,
        produced_entries (update_from_config default_min default_max conf cap reg2)
        = produced_entries reg')
  /\ external_client_infos reg' = external_client_infos reg
  /\ update_from_config default_min default_max conf cap reg' = reg'.
Proof.
  cbv zeta. split; [|split; [|split]].
  - rewrite produced_entries_update.
    repeat constructor; cbn [fst snd weight reservation limit];
      unfold get_res, get_lim, Cxx.truthy; intros Hz; rewrite Hz; reflexivity.
  - intros reg2. rewrite !produced_entries_update. reflexivity.
  - reflexivity.
  - apply update_from_config_idempotent.
Qed.


End RegistryProperties.



(** The slots used by [update_from_config] are the class indices. *)
Lemma slot_recovery_index :
  fin_to_nat slot_recovery = class_index background_recovery.
Proof. reflexivity. Qed.

Lemma slot_best_effort_index :
  fin_to_nat slot_best_effort = class_index background_best_effort.
Proof. reflexivity. Qed.

(** C7.  [get_info] returns an entry for every id whose class is not
    [immediate]: for [client] the entry of the id's profile in the
    sparse table, or the default external entry when the table has
    none; for a background class the slot of that class, the one
    [update_from_config] fills from that class's options.  For
    [immediate] it fails the assertion. *)
Theorem get_info_total (reg : ClientRegistry) (id : scheduler_id_t) :
  (class_id id <> immediate -> exists info, get_info reg id = Ok info)
  /\ (class_id id = client ->
        get_info reg id =
        Ok (match external_client_infos reg !! client_profile_id id with
            | Some info => info
            | None => default_external_client_info reg
            end))
  /\ (class_id id = background_recovery ->
        get_info reg id = Ok (internal_client_infos reg !!! slot_recovery))
  /\ (class_id id = background_best_effort ->
        get_info reg id = Ok (internal_client_infos reg !!! slot_best_effort))
  /\ (class_id id = immediate ->
        get_info reg id = Abort "Cannot schedule immediate")
  /\ (forall (C : Type) (CP : ConfigProxy C) dmin dmax (conf : C) cap keys,
        (class_id id = background_recovery /\ keys = background_recovery_keys)
        \/ (class_id id = background_best_effort
            /\ keys = background_best_effort_keys) ->
        get_info (update_from_config dmin dmax conf cap reg) id =
        Ok {| reservation := get_res dmin cap (get_val_double conf (res_key keys));
              weight := get_val_uint64 conf (wgt_key keys);
              limit := get_lim dmax cap (get_val_double conf (lim_key keys)) |}).
Proof.
  destruct id as [cls pid]; cbn [class_id client_profile_id].
  unfold get_info, get_external_client; cbn [class_id client_profile_id].
  repeat split.
  - intros Hne. destruct cls; try (eexists; reflexivity). congruence.
  - intros ->. destruct (external_client_infos reg !! pid); reflexivity.
  - intros ->. reflexivity.
  - intros ->. reflexivity.
  - intros ->. reflexivity.
  - intros C CP dmin dmax conf cap keys [[-> ->]|[-> ->]];
      destruct reg as [arr ext tbl]; inv_vec arr; intros r b; reflexivity.
Qed.

Lemma get_info_total_witness :
  get_info sample_registry {| class_id := client; client_profile_id := 7 |}
  = Ok (default_external_client_info sample_registry)
  /\ get_info
       (update_from_config 0 infinity (sample_conf "custom" "1" "0.6")
          157286400 sample_registry)
       {| class_id := background_best_effort; client_profile_id := 0 |}
     = Ok {| reservation := 0; weight := 1; limit := 110100480 |}
  /\ get_info sample_registry {| class_id := immediate; client_profile_id := 0 |}
     = Abort "Cannot schedule immediate".
Proof.
  pose proof (get_info_total sample_registry
                {| class_id := client; client_profile_id := 7 |})
    as (_ & Hclient & _).
  pose proof (get_info_total sample_registry
                {| class_id := background_best_effort; client_profile_id := 0 |})
    as (_ & _ & _ & _ & _ & Hupd).
  pose proof (get_info_total sample_registry
                {| class_id := immediate; client_profile_id := 0 |})
    as (_ & _ & _ & _ & Himm & _).
  split; [|split].
  - apply Hclient. reflexivity.
  - rewrite (Hupd _ _ 0%float infinity (sample_conf "custom" "1" "0.6")
               157286400%float background_best_effort_keys)
      by (right; split; reflexivity).
    vm_compute. reflexivity.
  - apply Himm. reflexivity.
Defined.

(** ** The high-priority bypass *)

Lemma pop_back_snoc (l : list item_t) (x : item_t) :
  pop_back (l ++ [x]) = Some (l, x).
Proof.
  induction l as [|y l IH]; [reflexivity|].
  cbn [app pop_back]. rewrite IH. reflexivity.
Qed.

Lemma pop_back_None (l : list item_t) : pop_back l = None -> l = [].
Proof.
  destruct l as [|y l]; [reflexivity|].
  cbn [pop_back]. destruct (pop_back l) as [[init z]|]; discriminate.
Qed.

Lemma pop_back_Some (l init : list item_t) (x : item_t) :
  pop_back l = Some (init, x) -> l = init ++ [x].
Proof.
  revert init. induction l as [|y l IH]; intros init; [discriminate|].
  cbn [pop_back]. destruct (pop_back l) as [[init' z]|] eqn:Hl.
  - intros [= <- <-]. cbn [app]. f_equal. apply IH. reflexivity.
  - intros [= <- <-]. apply pop_back_None in Hl. subst l. reflexivity.
Qed.

Lemma keys_below_weaken (b b' : Z) (q : SubQueue) :
  keys_below b q -> b <= b' -> keys_below b' q.
Proof.
  destruct q as [|[p l] rest]; [trivial|].
  cbn [keys_below]. intros [Hp Hrest] Hle. split; [lia|assumption].
Qed.

Lemma keys_below_In (b : Z) (q : SubQueue) (p : Z) (l : list item_t) :
  keys_below b q -> In (p, l) q -> p < b.
Proof.
  revert b. induction q as [|[p0 l0] rest IH]; intros b; [intros _ []|].
  cbn [keys_below In]. intros [Hp Hrest] [[= -> ->]|Hin]; [assumption|].
  specialize (IH _ Hrest Hin). lia.
Qed.

Lemma keys_below_find (b : Z) (q : SubQueue) (p : Z) :
  keys_below b q -> b <= p -> subqueue_find p q = None.
Proof.
  revert b. induction q as [|[p0 l0] rest IH]; intros b; [reflexivity|].
  cbn [keys_below subqueue_find]. intros [Hp Hrest] Hle.
  destruct (Z.eqb_spec p0 p); [lia|]. apply (IH p0); [assumption|lia].
Qed.

Lemma subqueue_find_In (q : SubQueue) (p : Z) (l : list item_t) :
  subqueue_find p q = Some l -> In (p, l) q.
Proof.
  induction q as [|[p0 l0] rest IH]; [discriminate|].
  cbn [subqueue_find In]. destruct (Z.eqb_spec p0 p) as [->|Hne].
  - intros [= ->]. left. reflexivity.
  - intros Hf. right. apply IH, Hf.
Qed.

Lemma sorted_In_find (q : SubQueue) (p : Z) (l : list item_t) :
  subqueue_sorted q -> In (p, l) q -> subqueue_find p q = Some l.
Proof.
  induction q as [|[p0 l0] rest IH]; [intros _ []|].
  cbn [subqueue_sorted In subqueue_find]. intros Hs [[= -> ->]|Hin].
  - rewrite Z.eqb_refl. reflexivity.
  - pose proof (keys_below_In _ _ _ _ Hs Hin) as Hlt.
    destruct (Z.eqb_spec p0 p); [lia|].
    apply IH; [|assumption].
    destruct rest as [|[p1 l1] rest']; [exact I|].
    cbn [keys_below] in Hs. cbn [subqueue_sorted]. apply Hs.
Qed.

Lemma sorted_tail (e : Z * list item_t) (q : SubQueue) :
  subqueue_sorted (e :: q) -> subqueue_sorted q.
Proof.
  destruct e as [p l]. destruct q as [|[p1 l1] rest]; [trivial|].
  cbn [subqueue_sorted keys_below]. tauto.
Qed.

Lemma keys_below_at (b p : Z) (f : list item_t -> list item_t) (q : SubQueue) :
  keys_below b q -> p < b -> keys_below b (subqueue_at p f q).
Proof.
  revert b. induction q as [|[p0 l0] rest IH]; intros b.
  - cbn [subqueue_at keys_below]. tauto.
  - cbn [subqueue_at keys_below]. intros [Hp Hrest] Hlt.
    destruct (Z.eqb_spec p0 p) as [->|Hne]; [cbn [keys_below]; tauto|].
    destruct (Z.ltb_spec p0 p).
    + cbn [keys_below]. tauto.
    + cbn [keys_below]. split; [assumption|]. apply IH; [assumption|lia].
Qed.

Lemma subqueue_at_sorted (p : Z) (f : list item_t -> list item_t) (q : SubQueue) :
  subqueue_sorted q -> subqueue_sorted (subqueue_at p f q).
Proof.
  destruct q as [|[p0 l0] rest]; [trivial|].
  cbn [subqueue_at subqueue_sorted]. intros Hs.
  destruct (Z.eqb_spec p0 p) as [->|Hne]; [assumption|].
  destruct (Z.ltb_spec p0 p).
  - cbn [subqueue_sorted keys_below]. tauto.
  - cbn [subqueue_sorted]. apply keys_below_at; [assumption|lia].
Qed.

Lemma subqueue_at_nonempty (p : Z) (f : list item_t -> list item_t) (q : SubQueue) :
  (forall l, f l <> []) ->
  Forall (fun e => snd e <> []) q ->
  Forall (fun e => snd e <> []) (subqueue_at p f q).
Proof.
  intros Hf. induction q as [|[p0 l0] rest IH]; intros Hq.
  - repeat constructor. apply Hf.
  - cbn [subqueue_at]. inversion Hq as [|e r He Hr]; subst.
    destruct (p0 =? p); [constructor; [apply Hf|assumption]|].
    destruct (p0 <? p); [constructor; [apply Hf|assumption]|].
    constructor; [assumption|]. apply IH, Hr.
Qed.

Lemma subqueue_find_at_other (p p' : Z) (f : list item_t -> list item_t)
    (q : SubQueue) :
  p' <> p -> subqueue_find p' (subqueue_at p f q) = subqueue_find p' q.
Proof.
  intros Hne. induction q as [|[p0 l0] rest IH].
  - cbn [subqueue_at subqueue_find]. destruct (Z.eqb_spec p p'); [lia|reflexivity].
  - cbn [subqueue_at]. destruct (Z.eqb_spec p0 p) as [->|Hp0].
    + cbn [subqueue_find]. destruct (Z.eqb_spec p p'); [lia|reflexivity].
    + destruct (p0 <? p).
      * cbn [subqueue_find]. destruct (Z.eqb_spec p p'); [lia|reflexivity].
      * cbn [subqueue_find]. rewrite IH. reflexivity.
Qed.

Lemma subqueue_find_at_same (p : Z) (f : list item_t -> list item_t)
    (q : SubQueue) :
  subqueue_sorted q ->
  subqueue_find p (subqueue_at p f q) = Some (f (bucket q p)).
Proof.
  unfold bucket. induction q as [|[p0 l0] rest IH]; intros Hs.
  - cbn [subqueue_at subqueue_find]. rewrite Z.eqb_refl. reflexivity.
  - cbn [subqueue_at subqueue_find]. destruct (Z.eqb_spec p0 p) as [->|Hp0].
    + cbn [subqueue_find]. rewrite Z.eqb_refl. reflexivity.
    + destruct (Z.ltb_spec p0 p).
      * cbn [subqueue_find]. rewrite Z.eqb_refl.
        destruct (Z.eqb_spec p0 p); [lia|].
        cbn [subqueue_sorted] in Hs.
        rewrite (keys_below_find p0 rest p Hs) by lia. reflexivity.
      * cbn [subqueue_find]. destruct (Z.eqb_spec p0 p); [lia|].
        apply IH. apply (sorted_tail _ _ Hs).
Qed.

(** The first entry of a sorted map has the highest key. *)
Lemma sorted_head_highest (p : Z) (l : list item_t) (rest q : SubQueue) :
  subqueue_sorted q -> q = (p, l) :: rest ->
  (forall p' l', subqueue_find p' q = Some l' -> p' <= p)
  /\ subqueue_find p rest = None.
Proof.
  intros Hs ->. cbn [subqueue_sorted] in Hs. split.
  - intros p' l' Hf. apply subqueue_find_In in Hf.
    destruct Hf as [[= -> ->]|Hin]; [lia|].
    pose proof (keys_below_In _ _ _ _ Hs Hin). lia.
  - apply (keys_below_find p); [assumption|lia].
Qed.

Section FacadeProperties.

Context {C E : Type} `{ConfigProxy C} `{TagEngine E}.

Abbreviation state := (mClockScheduler (C := C) (E := E)).


Lemma enqueue_high_in_bypass (priority : Z) (item : item_t) (st : state) :
  subqueue_sorted (high_priority st) ->
  in_bypass_at priority item st (enqueue_high priority item false st).
Proof.
  intros Hs. unfold in_bypass_at, enqueue_high.
  cbn [scheduler high_priority with_high_priority]. split; [reflexivity|]. split.
  - rewrite subqueue_find_at_same by assumption. reflexivity.
  - intros p Hne. apply subqueue_find_at_other, Hne.
Qed.

Lemma enqueue_high_wf (priority : Z) (item : item_t) (front : bool) (st : state) :
  subqueue_wf (high_priority st) ->
  subqueue_wf (high_priority (enqueue_high priority item front st)).
Proof.
  intros [Hs Hne]. unfold enqueue_high. cbn [high_priority with_high_priority].
  split; [apply subqueue_at_sorted, Hs|].
  apply subqueue_at_nonempty; [|assumption].
  intros l. destruct front; unfold push_back, push_front;
    [destruct l|]; discriminate.
Qed.

(** C1.  [enqueue] routes by class, then by priority.  An [immediate]
    item goes into the bypass at [immediate_class_priority]; any other
    item whose priority is at least [cutoff_priority] goes into the
    bypass at its own priority; in both cases the dmclock queue is left
    as it was.  Every other item is handed to [add_request] under its
    scheduler id with cost [calc_scaled_cost (get_cost item)], and the
    bypass is left as it was. *)
Theorem enqueue_routes (st : state) (item : item_t) :
  subqueue_sorted (high_priority st) ->
  (klass item = immediate ->
     exists st', enqueue item st = Ok st'
       /\ in_bypass_at (immediate_class_priority st) item st st')
  /\ (klass item <> immediate -> cutoff_priority st <= get_priority item ->
        exists st', enqueue item st = Ok st'
          /\ in_bypass_at (get_priority item) item st st')
  /\ (klass item <> immediate -> get_priority item < cutoff_priority st ->
        enqueue item st =
          (cost ← calc_scaled_cost st (get_cost item);
           Ok (with_scheduler
                 (add_request item (get_scheduler_id item) cost (scheduler st))
                 st))
        /\ forall st', enqueue item st = Ok st' ->
             high_priority st' = high_priority st
             /\ exists cost, calc_scaled_cost st (get_cost item) = Ok cost
                  /\ scheduler st' =
                     add_request item (get_scheduler_id item) cost (scheduler st)).
Proof.
  intros Hs. unfold enqueue. split; [|split].
  - intros Himm. destruct (decide (immediate = klass item)); [|congruence].
    eexists. split; [reflexivity|]. apply enqueue_high_in_bypass, Hs.
  - intros Hne Hcut. destruct (decide (immediate = klass item)); [congruence|].
    destruct (Z.leb_spec (cutoff_priority st) (get_priority item)); [|lia].
    eexists. split; [reflexivity|]. apply enqueue_high_in_bypass, Hs.
  - intros Hne Hlt. destruct (decide (immediate = klass item)); [congruence|].
    destruct (Z.leb_spec (cutoff_priority st) (get_priority item)); [lia|].
    split; [reflexivity|]. intros st'.
    destruct (calc_scaled_cost st (get_cost item)) as [cost| |];
      cbn; intros [= <-].
    split; [reflexivity|]. exists cost. split; reflexivity.
Qed.

(** C2.  While the bypass holds an entry, [dequeue] returns the last
    item of its first bucket, the one of the highest priority present;
    the bucket loses that item and is erased when it was the only one;
    the dmclock queue is neither read nor changed.  Only when the
    bypass is empty does [dequeue] call [pull_request]: a future yields
    the wake-up time, a request the item, and none fails the
    assertion. *)
Theorem dequeue_high_priority_first (st : state) :
  subqueue_wf (high_priority st) ->
  (forall p l rest, high_priority st = (p, l) :: rest ->
     (forall p' l', subqueue_find p' (high_priority st) = Some l' -> p' <= p)
     /\ exists init ret,
          l = init ++ [ret]
          /\ let q' := match init with [] => rest | _ :: _ => (p, init) :: rest end in
             (forall e : E,
                dequeue (with_scheduler e st)
                = Ok (WorkItem_item ret,
                      with_scheduler e (with_high_priority q' st)))
             /\ dequeue st = Ok (WorkItem_item ret, with_high_priority q' st)
             /\ subqueue_find p q' = match init with [] => None | _ :: _ => Some init end)
  /\ (high_priority st = [] ->
      forall r e, pull_request (scheduler st) = (r, e) ->
        dequeue st =
        match r with
        | PullReq_future when => Ok (WorkItem_time when, with_scheduler e st)
        | PullReq_returning request => Ok (WorkItem_item request, with_scheduler e st)
        | PullReq_none => Abort "Impossible, must have checked empty() first"
        end).
Proof.
  intros [Hs Hne]. split.
  - intros p l rest Hq.
    destruct (sorted_head_highest p l rest _ Hs Hq) as [Hhigh Hrest].
    split; [exact Hhigh|].
    rewrite Hq in Hne. apply Forall_inv in Hne. cbn [snd] in Hne.
    destruct (pop_back l) as [[init ret]|] eqn:Hpop;
      [|apply pop_back_None in Hpop; contradiction].
    exists init, ret. split; [apply pop_back_Some, Hpop|].
    cbv zeta. split; [|split].
    + intros e. unfold dequeue. cbn [high_priority with_scheduler].
      rewrite Hq, Hpop. reflexivity.
    + unfold dequeue. rewrite Hq, Hpop. reflexivity.
    + destruct init; [exact Hrest|].
      cbn [subqueue_find]. rewrite Z.eqb_refl. reflexivity.
  - intros Hq r e Hpull. unfold dequeue. rewrite Hq, Hpull.
    destruct r; reflexivity.
Qed.


Lemma dequeue_wf (st st' : state) (w : WorkItem) :
  subqueue_wf (high_priority st) ->
  dequeue st = Ok (w, st') ->
  subqueue_wf (high_priority st').
Proof.
  intros [Hs Hne]. unfold dequeue.
  destruct (high_priority st) as [|[p l] rest] eqn:Hq.
  - destruct (pull_request (scheduler st)) as [[|t|r] e]; intros [= <- <-];
      cbn [high_priority with_scheduler]; rewrite Hq; split; assumption.
  - destruct (pop_back l) as [[init ret]|] eqn:Hpop; [|discriminate].
    intros [= <- <-]. cbn [high_priority with_high_priority].
    inversion Hne as [|e r He Hr]; subst.
    destruct init as [|i init'].
    + split; [apply (sorted_tail _ _ Hs)|assumption].
    + split; [exact Hs|]. constructor; [discriminate|assumption].
Qed.

(** Draining the first bucket returns it back to front and erases it. *)
Lemma dequeue_n_bucket (l : list item_t) :
  forall (st : state) (p : Z) (rest : SubQueue),
    l <> [] ->
    high_priority st = (p, l) :: rest ->
    dequeue_n (length l) st
    = Ok (map WorkItem_item (rev l), with_high_priority rest st).
Proof.
  induction l as [|x l IH] using rev_ind; intros st p rest Hne Hq;
    [contradiction|].
  rewrite length_app, Nat.add_comm. cbn [length Nat.add dequeue_n].
  unfold dequeue. rewrite Hq, pop_back_snoc. cbn.
  rewrite rev_app_distr. cbn [rev app map].
  destruct l as [|y l'].
  - reflexivity.
  - rewrite (IH (with_high_priority ((p, y :: l') :: rest) st) p rest);
      [reflexivity|discriminate|reflexivity].
Qed.


Lemma dequeue_n_app (a b : nat) :
  forall (st st1 st2 : state) (ws1 ws2 : list WorkItem),
    dequeue_n a st = Ok (ws1, st1) ->
    dequeue_n b st1 = Ok (ws2, st2) ->
    dequeue_n (a + b) st = Ok (ws1 ++ ws2, st2).
Proof.
  induction a as [|a IH]; intros st st1 st2 ws1 ws2.
  - cbn. intros [= <- <-] Hb. exact Hb.
  - cbn [dequeue_n Nat.add].
    destruct (dequeue st) as [[w s]| |]; cbn; try discriminate.
    destruct (dequeue_n a s) as [[ws s']| |] eqn:Ha; cbn; try discriminate.
    intros [= <- <-] Hb. rewrite (IH _ _ _ _ _ Ha Hb). reflexivity.
Qed.

(** Emptying the bypass returns [drain] of it. *)
Lemma dequeue_n_drain (q : SubQueue) :
  forall st : state,
    Forall (fun e => snd e <> []) q ->
    high_priority st = q ->
    dequeue_n (length (drain q)) st
    = Ok (map WorkItem_item (drain q), with_high_priority [] st).
Proof.
  induction q as [|[p l] rest IH]; intros st Hne Hq.
  - cbn. destruct st; cbn in Hq; subst; reflexivity.
  - inversion Hne as [|e r Hl Hrest]; subst. cbn [snd] in Hl.
    unfold drain. cbn [map concat snd]. fold (drain rest).
    rewrite length_app, length_rev, map_app.
    apply (dequeue_n_app _ _ st (with_high_priority rest st)).
    + apply (dequeue_n_bucket l st p rest Hl Hq).
    + apply (IH (with_high_priority rest st) Hrest). reflexivity.
Qed.

Lemma keys_below_split (b p : Z) (q : SubQueue) :
  keys_below b q -> b <= p -> above p q = [] /\ below p q = q.
Proof.
  revert b. induction q as [|[p0 l0] rest IH]; intros b; [split; reflexivity|].
  cbn [keys_below]. intros [Hp Hrest] Hle.
  destruct (IH p0 Hrest ltac:(lia)) as [Ha Hb].
  unfold above, below in *. cbn [List.filter fst].
  destruct (Z.ltb_spec p p0); [lia|]. destruct (Z.ltb_spec p0 p); [|lia].
  rewrite Ha, Hb. split; reflexivity.
Qed.

(** A sorted bypass is what lies above a priority, the bucket of that
    priority if there is one, and what lies below. *)
Lemma sorted_split (p : Z) (q : SubQueue) :
  subqueue_sorted q ->
  q = above p q
        ++ match subqueue_find p q with Some l => [(p, l)] | None => [] end
        ++ below p q.
Proof.
  induction q as [|[p0 l0] rest IH]; intros Hs; [reflexivity|].
  pose proof (sorted_tail _ _ Hs) as Hrest. cbn [subqueue_sorted] in Hs.
  unfold above, below in *. cbn [List.filter fst subqueue_find].
  destruct (Z.eqb_spec p0 p) as [->|Hne].
  - destruct (keys_below_split p p rest Hs ltac:(lia)) as [Ha Hb].
    unfold above, below in Ha, Hb. rewrite Ha, Hb, Z.ltb_irrefl. reflexivity.
  - destruct (Z.ltb_spec p p0).
    + destruct (Z.ltb_spec p0 p); [lia|]. cbn [app]. f_equal. apply IH, Hrest.
    + destruct (Z.ltb_spec p0 p); [|lia].
      destruct (keys_below_split p0 p rest Hs ltac:(lia)) as [Ha Hb].
      unfold above, below in Ha, Hb. rewrite Ha, Hb.
      rewrite (keys_below_find p0 rest p Hs) by lia. reflexivity.
Qed.

Lemma drain_app (q1 q2 : SubQueue) : drain (q1 ++ q2) = drain q1 ++ drain q2.
Proof. unfold drain. rewrite map_app, concat_app. reflexivity. Qed.

Lemma drain_split (p : Z) (q : SubQueue) :
  subqueue_sorted q ->
  drain q = drain (above p q) ++ rev (bucket q p) ++ drain (below p q).
Proof.
  intros Hs. rewrite (sorted_split p q Hs) at 1. rewrite !drain_app.
  unfold bucket. destruct (subqueue_find p q) as [l|]; cbn.
  - rewrite app_nil_r. reflexivity.
  - reflexivity.
Qed.

Lemma above_at (p : Z) (f : list item_t -> list item_t) (q : SubQueue) :
  above p (subqueue_at p f q) = above p q.
Proof.
  unfold above. induction q as [|[p0 l0] rest IH].
  - cbn. rewrite Z.ltb_irrefl. reflexivity.
  - cbn [subqueue_at].
    destruct (Z.eqb_spec p0 p) as [->|Hne]; [cbn [List.filter fst]; rewrite Z.ltb_irrefl; reflexivity|].
    destruct (Z.ltb_spec p0 p).
    + cbn [List.filter fst]. rewrite Z.ltb_irrefl. reflexivity.
    + cbn [List.filter fst]. rewrite IH. reflexivity.
Qed.

Lemma below_at (p : Z) (f : list item_t -> list item_t) (q : SubQueue) :
  below p (subqueue_at p f q) = below p q.
Proof.
  unfold below. induction q as [|[p0 l0] rest IH].
  - cbn. rewrite Z.ltb_irrefl. reflexivity.
  - cbn [subqueue_at].
    destruct (Z.eqb_spec p0 p) as [->|Hne]; [cbn [List.filter fst]; rewrite Z.ltb_irrefl; reflexivity|].
    destruct (Z.ltb_spec p0 p).
    + cbn [List.filter fst]. rewrite Z.ltb_irrefl. reflexivity.
    + cbn [List.filter fst]. rewrite IH. reflexivity.
Qed.

Lemma bucket_at_same (p : Z) (f : list item_t -> list item_t) (q : SubQueue) :
  subqueue_sorted q -> bucket (subqueue_at p f q) p = f (bucket q p).
Proof.
  intros Hs. unfold bucket at 1. rewrite subqueue_find_at_same by assumption.
  reflexivity.
Qed.

(** The bypass after a run of admissions at one priority: the bucket
    grew at its front ([front = false]) or at its back ([front = true]),
    the rest is as it was. *)
Lemma enqueue_high_all_view (p : Z) (front : bool) (xs : list item_t) :
  forall st : state,
    subqueue_wf (high_priority st) ->
    let st' := enqueue_high_all p front xs st in
    subqueue_wf (high_priority st')
    /\ above p (high_priority st') = above p (high_priority st)
    /\ below p (high_priority st') = below p (high_priority st)
    /\ bucket (high_priority st') p
       = if front then bucket (high_priority st) p ++ xs
         else rev xs ++ bucket (high_priority st) p.
Proof.
  induction xs as [|x xs IH]; intros st Hwf; cbv zeta.
  - cbn. rewrite app_nil_r. destruct front; repeat split; try apply Hwf; reflexivity.
  - cbn [enqueue_high_all fold_left].
    change (fold_left _ xs ?s) with (enqueue_high_all p front xs s).
    destruct (IH (enqueue_high p x front st) (enqueue_high_wf p x front st Hwf))
      as (Hwf' & Ha & Hb & Hbucket).
    split; [exact Hwf'|]. rewrite Ha, Hb, Hbucket.
    unfold enqueue_high. cbn [high_priority with_high_priority].
    rewrite above_at, below_at. split; [reflexivity|]. split; [reflexivity|].
    rewrite bucket_at_same by apply Hwf.
    destruct front; unfold push_back, push_front; cbn [rev];
      rewrite <- ?app_assoc; reflexivity.
Qed.

Lemma facade_is_enqueue_high (p : Z) (xs : list item_t) :
  forall st : state,
    Forall (fun x => klass x <> immediate /\ get_priority x = p) xs ->
    cutoff_priority st <= p ->
    enqueue_all xs st = Ok (enqueue_high_all p false xs st)
    /\ enqueue_front_all xs st = enqueue_high_all p true xs st.
Proof.
  induction xs as [|x xs IH]; intros st Hxs Hcut; [split; reflexivity|].
  inversion Hxs as [|y ys [Hk Hp] Hrest]; subst.
  assert (Hback : enqueue x st = Ok (enqueue_high (get_priority x) x false st)).
  { unfold enqueue. destruct (decide (immediate = klass x)); [congruence|].
    destruct (Z.leb_spec (cutoff_priority st) (get_priority x)); [reflexivity|lia]. }
  assert (Hfront : enqueue_front x st = enqueue_high (get_priority x) x true st).
  { unfold enqueue_front. destruct (decide (immediate = klass x)); [congruence|].
    destruct (Z.leb_spec (cutoff_priority st) (get_priority x)); [reflexivity|lia]. }
  split.
  - cbn [enqueue_all]. rewrite Hback. cbn.
    apply (IH (enqueue_high (get_priority x) x false st)); assumption.
  - unfold enqueue_front_all. cbn [fold_left]. rewrite Hfront.
    apply (IH (enqueue_high (get_priority x) x true st)); assumption.
Qed.

(** C3.  Emptying the bypass after [xs] were admitted at priority [p]
    returns the buckets above [p], then the bucket of [p], then the
    buckets below.  Of the bucket of [p], items admitted with
    [front = false] leave in the order they were admitted, after what
    the bucket already held; items admitted with [front = true] leave
    most recent first, before what the bucket already held.  [enqueue]
    and [enqueue_front] admit an item that is not [immediate] and whose
    priority reaches the cut-off in exactly these two ways. *)
Theorem bucket_fifo_lifo (st : state) (p : Z) (xs : list item_t) :
  subqueue_wf (high_priority st) ->
  let old := bucket (high_priority st) p in
  let higher := drain (above p (high_priority st)) in
  let lower := drain (below p (high_priority st)) in
  let n := (length higher + (length old + length xs) + length lower)%nat in
  dequeue_n n (enqueue_high_all p false xs st)
  = Ok (map WorkItem_item (higher ++ (rev old ++ xs) ++ lower),
        with_high_priority [] (enqueue_high_all p false xs st))
  /\ dequeue_n n (enqueue_high_all p true xs st)
     = Ok (map WorkItem_item (higher ++ (rev xs ++ rev old) ++ lower),
           with_high_priority [] (enqueue_high_all p true xs st))
  /\ (Forall (fun x => klass x <> immediate /\ get_priority x = p) xs ->
      cutoff_priority st <= p ->
      enqueue_all xs st = Ok (enqueue_high_all p false xs st)
      /\ enqueue_front_all xs st = enqueue_high_all p true xs st).
Proof.
  intros Hwf old higher lower n.
  assert (Hdrain : forall front,
            drain (high_priority (enqueue_high_all p front xs st))
            = higher ++ (if front then rev xs ++ rev old else rev old ++ xs)
                ++ lower).
  { intros front.
    destruct (enqueue_high_all_view p front xs st Hwf) as ([Hs' _] & Ha & Hb & Hbk).
    rewrite (drain_split p _ Hs'), Ha, Hb, Hbk. fold old higher lower.
    destruct front; rewrite rev_app_distr, ?rev_involutive; reflexivity. }
  assert (Hlen : forall front,
            length (drain (high_priority (enqueue_high_all p front xs st))) = n).
  { intros front. rewrite Hdrain. subst n.
    destruct front; rewrite !length_app, !length_rev; lia. }
  split; [|split].
  - rewrite <- (Hlen false), <- (Hdrain false).
    apply dequeue_n_drain; [|reflexivity].
    apply (enqueue_high_all_view p false xs st Hwf).
  - rewrite <- (Hlen true), <- (Hdrain true).
    apply dequeue_n_drain; [|reflexivity].
    apply (enqueue_high_all_view p true xs st Hwf).
  - apply facade_is_enqueue_high.
Qed.

End FacadeProperties.


Lemma subqueue_wf_nil : subqueue_wf [].
Proof. split; [exact I | constructor]. Qed.

Lemma sample_bypass_wf : subqueue_wf (high_priority sample_bypass).
Proof.
  split.
  - cbn. lia.
  - repeat constructor; discriminate.
Qed.

Lemma enqueue_routes_witness :
  (exists st', enqueue item_now (sample_scheduler 0 "balanced") = Ok st'
     /\ in_bypass_at (2 ^ 32 - 1) item_now (sample_scheduler 0 "balanced") st')
  /\ (exists st', enqueue item_a (sample_scheduler 0 "balanced") = Ok st'
        /\ in_bypass_at 200 item_a (sample_scheduler 0 "balanced") st')
  /\ enqueue item_c (sample_scheduler 0 "balanced")
     = Ok (with_scheduler
             [(item_c, {| class_id := client; client_profile_id := 0 |}, 4096)]
             (sample_scheduler 0 "balanced")).
Proof.
  pose proof (enqueue_routes (sample_scheduler 0 "balanced") item_now I)
    as (Hnow & _ & _).
  pose proof (enqueue_routes (sample_scheduler 0 "balanced") item_a I)
    as (_ & Ha & _).
  pose proof (enqueue_routes (sample_scheduler 0 "balanced") item_c I)
    as (_ & _ & Hc).
  split; [|split].
  - apply Hnow. reflexivity.
  - apply Ha; [discriminate | cbn; lia].
  - destruct Hc as [Heq _]; [discriminate | cbn; lia |].
    rewrite Heq. vm_compute. reflexivity.
Defined.

Lemma dequeue_high_priority_first_witness :
  dequeue sample_bypass
  = Ok (WorkItem_item item_a,
        with_high_priority [(200, [item_b]); (64, [item_c])] sample_bypass)
  /\ dequeue (sample_scheduler 0 "balanced")
     = Abort "Impossible, must have checked empty() first".
Proof.
  pose proof (dequeue_high_priority_first sample_bypass sample_bypass_wf)
    as [Hhigh _].
  destruct (Hhigh 200 [item_b; item_a] [(64, [item_c])] eq_refl)
    as (_ & init & ret & Hl & _ & Hdq & _).
  apply (app_inj_tail [item_b] init item_a ret) in Hl. destruct Hl as [<- <-].
  pose proof (dequeue_high_priority_first (sample_scheduler 0 "balanced")
                subqueue_wf_nil) as [_ Hempty].
  split; [exact Hdq|].
  exact (Hempty eq_refl PullReq_none [] eq_refl).
Defined.

Lemma bucket_fifo_lifo_witness :
  dequeue_n 5 (enqueue_high_all 200 false [item_now; item_c] sample_bypass)
  = Ok (map WorkItem_item [item_a; item_b; item_now; item_c; item_c],
        with_high_priority []
          (enqueue_high_all 200 false [item_now; item_c] sample_bypass))
  /\ dequeue_n 5 (enqueue_high_all 200 true [item_now; item_c] sample_bypass)
     = Ok (map WorkItem_item [item_c; item_now; item_a; item_b; item_c],
           with_high_priority []
             (enqueue_high_all 200 true [item_now; item_c] sample_bypass)).
Proof.
  pose proof (bucket_fifo_lifo sample_bypass 200 [item_now; item_c]
                sample_bypass_wf) as (Hback & Hfront & _).
  split; [exact Hback | exact Hfront].
Defined.

(** ** Profile defaults *)


Lemma choose_profile_builtin (name : string) (p : profile_t.t) :
  In (name, p) builtin_profiles -> choose_profile name = use_profile p.
Proof.
  cbn [In builtin_profiles].
  intros [[= <- <-]|[[= <- <-]|[[= <- <-]|[]]]]; reflexivity.
Qed.


Lemma high_client_ops_text :
  remove_dups (profile_settings high_client_ops_profile)
  = [ ("osd_mclock_scheduler_client_res", "0.600000");
      ("osd_mclock_scheduler_client_wgt", "2");
      ("osd_mclock_scheduler_client_lim", "0.000000");
      ("osd_mclock_scheduler_background_recovery_res", "0.400000");
      ("osd_mclock_scheduler_background_recovery_wgt", "1");
      ("osd_mclock_scheduler_background_recovery_lim", "0.000000");
      ("osd_mclock_scheduler_background_best_effort_res", "0.000000");
      ("osd_mclock_scheduler_background_best_effort_wgt", "1");
      ("osd_mclock_scheduler_background_best_effort_lim", "0.700000") ].
Proof. vm_compute. reflexivity. Qed.

Section ProfileProperties.

Context {C E : Type} `{ConfigProxy C} `{TagEngine E}.


End ProfileProperties.



(** ** The configuration observer and the constructor *)

Section ObserverProperties.

Variables default_min default_max : float.
Variables CEPH_MSG_PRIO_LOW CEPH_MSG_PRIO_HIGH : Z.
Context {C E : Type} `{ConfigProxy C} `{TagEngine E}.

Abbreviation state := (mClockScheduler (C := C) (E := E)).
Abbreviation refresh := (refresh_registry default_min default_max).
Abbreviation recompute := set_osd_capacity_params_from_config.

Lemma refresh_twice (st : state) : refresh (refresh st) = refresh st.
Proof.
  destruct st. unfold refresh_registry, with_registry. cbn.
  f_equal. apply update_from_config_idempotent.
Qed.

Lemma recompute_refresh_twice (st : state) :
  refresh (recompute (refresh (recompute st))) = refresh (recompute st).
Proof.
  destruct st as [conf w n s rot cut io cap reg e q imm].
  unfold set_osd_capacity_params_from_config, refresh_registry,
    with_registry, with_capacity.
  cbn. destruct rot; cbn; f_equal; apply update_from_config_idempotent.
Qed.


Lemma get_changed_key_Some (changed : gset string) (key : string) :
  In key qos_params -> key ∈ changed ->
  exists key', get_changed_key changed = Some key'.
Proof.
  intros Hin Hch. unfold get_changed_key.
  destruct (find (count changed) qos_params) as [k|] eqn:Hf; [eauto|].
  exfalso. pose proof (find_none _ _ Hf key Hin) as Hc.
  unfold count in Hc. rewrite bool_decide_eq_false in Hc. contradiction.
Qed.

Lemma get_changed_key_None (changed : gset string) :
  (forall key, In key qos_params -> key ∉ changed) ->
  get_changed_key changed = None.
Proof.
  intros Hnone. unfold get_changed_key.
  destruct (find (count changed) qos_params) as [k|] eqn:Hf; [|reflexivity].
  exfalso. apply find_some in Hf. destruct Hf as [Hin Hc].
  unfold count in Hc. rewrite bool_decide_eq_true in Hc.
  exact (Hnone k Hin Hc).
Qed.

Lemma high_priority_recompute (st : state) :
  high_priority (recompute st) = high_priority st.
Proof.
  unfold set_osd_capacity_params_from_config.
  destruct (is_rotational st); reflexivity.
Qed.

Lemma high_priority_profile (st st' : state) :
  set_config_defaults_from_profile st = Ok st' ->
  high_priority st' = high_priority st.
Proof.
  unfold set_config_defaults_from_profile.
  destruct (0 <? shard_id st); [intros [= <-]; reflexivity|].
  destruct (choose_profile _); intros [= <-]; reflexivity.
Qed.

Lemma high_priority_step (b : bool) (st : state) :
  high_priority (if b then refresh (recompute st) else st) = high_priority st.
Proof.
  destruct b; [|reflexivity].
  cbn [refresh_registry with_registry high_priority].
  apply high_priority_recompute.
Qed.

Lemma high_priority_conf_change (changed : gset string) (st st' : state) :
  handle_conf_change default_min default_max changed st = Ok st' ->
  high_priority st' = high_priority st.
Proof.
  unfold handle_conf_change. cbv zeta.
  match goal with
  | |- context [set_config_defaults_from_profile ?s] =>
      assert (H2 : high_priority s = high_priority st)
        by (rewrite !high_priority_step; reflexivity);
      revert H2; generalize s; intros s2 H2
  end.
  destruct (count changed "osd_mclock_profile").
  - destruct (set_config_defaults_from_profile s2) as [s3| |] eqn:Hp;
      run_bind; try discriminate.
    apply high_priority_profile in Hp.
    destruct (get_changed_key changed);
      [destruct (String.eqb _ _)|]; intros [= <-];
      cbn [refresh_registry with_registry high_priority]; congruence.
  - run_bind.
    destruct (get_changed_key changed);
      [destruct (String.eqb _ _)|]; intros [= <-];
      cbn [refresh_registry with_registry high_priority]; congruence.
Qed.

(** Every state a shard goes through keeps the invariant of
    [high_priority]. *)
Lemma reachable_wf (st : state) :
  reachable default_min default_max CEPH_MSG_PRIO_LOW CEPH_MSG_PRIO_HIGH st ->
  subqueue_wf (high_priority st).
Proof.
  induction 1 as [conf w n sh rot perf reg0 imm rnd st Hnew
                 | st item st' _ IH Henq
                 | st item _ IH
                 | st w st' _ IH Hdeq
                 | st conf' changed st' _ IH Hconf].
  - assert (Hq : high_priority st = []).
    { revert Hnew. unfold mClockScheduler_new.
      destruct (0 <? n); cbn [negb]; [|discriminate].
      run_bind.
      destruct (set_config_defaults_from_profile _) as [s| |] eqn:Hp;
        try discriminate.
      intros [= <-]. apply high_priority_profile in Hp.
      cbn [refresh_registry with_registry high_priority]. rewrite Hp.
      rewrite high_priority_recompute. reflexivity. }
    rewrite Hq. split; [exact I | constructor].
  - revert Henq. unfold enqueue.
    destruct (decide (immediate = klass item));
      [intros [= <-]; apply enqueue_high_wf, IH|].
    destruct (cutoff_priority st <=? get_priority item);
      [intros [= <-]; apply enqueue_high_wf, IH|].
    destruct (calc_scaled_cost st (get_cost item)); cbn; intros [= <-].
    exact IH.
  - unfold enqueue_front.
    destruct (decide (immediate = klass item)); [apply enqueue_high_wf, IH|].
    destruct (cutoff_priority st <=? get_priority item);
      apply enqueue_high_wf, IH.
  - exact (dequeue_wf st st' w IH Hdeq).
  - rewrite (high_priority_conf_change _ _ _ Hconf). exact IH.
Qed.

(** A refresh overwrites what an earlier refresh produced. *)
Lemma update_from_config_absorbs (conf conf' : C) (cap cap' : float)
    (reg : ClientRegistry) :
  update_from_config default_min default_max conf' cap'
    (update_from_config default_min default_max conf cap reg)
  = update_from_config default_min default_max conf' cap' reg.
Proof.
  destruct reg as [arr ext tbl]. inv_vec arr. intros r b. reflexivity.
Qed.

Lemma profile_step_fields (st st' : state) :
  set_config_defaults_from_profile st = Ok st' ->
  osd_bandwidth_cost_per_io st' = osd_bandwidth_cost_per_io st
  /\ osd_bandwidth_capacity_per_shard st' = osd_bandwidth_capacity_per_shard st
  /\ client_registry st' = client_registry st.
Proof.
  unfold set_config_defaults_from_profile.
  destruct (0 <? shard_id st); [intros [= <-]; auto|].
  destruct (choose_profile _); intros [= <-]; auto.
Qed.

(** C9.  When a bandwidth or IOPS option changed, [handle_conf_change]
    recomputes the capacity parameters from the store, by the device
    class of the shard, and the registry it leaves is the one
    [update_from_config] computes from the new capacity per shard; when
    the profile option did not change with it, that is all it does.
    When neither a capacity option nor the profile option changed, a
    change of per-class QoS options makes the registry the one
    [update_from_config] computes from the store if the profile is
    [custom], and leaves the scheduler as it was under any other
    profile. *)
Theorem handle_conf_change_refreshes (changed : gset string) (st : state) :
  let conf := cct_conf st in
  let profile := get_val_string conf "osd_mclock_profile" in
  let bandwidth :=
    Z.max 1
      (get_val_size conf
         (if is_rotational st then "osd_mclock_max_sequential_bandwidth_hdd"
          else "osd_mclock_max_sequential_bandwidth_ssd")) in
  let iops :=
    Cxx.max_double 1
      (get_val_double conf
         (if is_rotational st then "osd_mclock_max_capacity_iops_hdd"
          else "osd_mclock_max_capacity_iops_ssd")) in
  let cost_per_io := (Cxx.double_of_unsigned bandwidth / iops)%float in
  let per_shard :=
    (Cxx.double_of_unsigned bandwidth
     / Cxx.double_of_unsigned (num_shards st))%float in
  (capacity_changed changed = true ->
     (forall st', handle_conf_change default_min default_max changed st = Ok st' ->
        osd_bandwidth_cost_per_io st' = cost_per_io
        /\ osd_bandwidth_capacity_per_shard st' = per_shard
        /\ client_registry st'
           = update_from_config default_min default_max (cct_conf st') per_shard
               (client_registry st))
     /\ (count changed "osd_mclock_profile" = false ->
         exists st', handle_conf_change default_min default_max changed st = Ok st'
           /\ cct_conf st' = conf))
  /\ (capacity_changed changed = false ->
      count changed "osd_mclock_profile" = false ->
      (profile <> "custom" ->
         handle_conf_change default_min default_max changed st = Ok st)
      /\ (profile = "custom" ->
          (exists key, In key qos_params /\ key ∈ changed) ->
          exists st', handle_conf_change default_min default_max changed st = Ok st'
            /\ client_registry st'
               = update_from_config default_min default_max conf
                   (osd_bandwidth_capacity_per_shard st) (client_registry st)
            /\ osd_bandwidth_cost_per_io st' = osd_bandwidth_cost_per_io st
            /\ osd_bandwidth_capacity_per_shard st'
               = osd_bandwidth_capacity_per_shard st
            /\ cct_conf st' = conf)
      /\ ((forall key, In key qos_params -> key ∉ changed) ->
          handle_conf_change default_min default_max changed st = Ok st)).
Proof.
  intros conf profile bandwidth iops cost_per_io per_shard.
  assert (Hrec : osd_bandwidth_cost_per_io (recompute st) = cost_per_io
                 /\ osd_bandwidth_capacity_per_shard (recompute st) = per_shard
                 /\ client_registry (recompute st) = client_registry st
                 /\ cct_conf (recompute st) = conf).
  { subst cost_per_io per_shard bandwidth iops conf.
    unfold set_osd_capacity_params_from_config.
    destruct (is_rotational st); repeat split. }
  destruct Hrec as (Hcost & Hcap & Hreg & Hconf).
  assert (Hstep : handle_conf_change default_min default_max changed st
                  = if capacity_changed changed then
                      if count changed "osd_mclock_profile" then
                        st' ← set_config_defaults_from_profile (refresh (recompute st));
                        Ok (refresh st')
                      else Ok (refresh (recompute st))
                    else handle_conf_change default_min default_max changed st).
  { unfold capacity_changed, handle_conf_change. cbv zeta.
    destruct (count changed "osd_mclock_max_capacity_iops_hdd"),
             (count changed "osd_mclock_max_capacity_iops_ssd"),
             (count changed "osd_mclock_max_sequential_bandwidth_hdd"),
             (count changed "osd_mclock_max_sequential_bandwidth_ssd");
      cbn [orb]; try reflexivity;
      rewrite ?recompute_refresh_twice;
      (destruct (count changed "osd_mclock_profile");
       [destruct (set_config_defaults_from_profile (refresh (recompute st)))
          as [st'| |]|]);
      run_bind; try reflexivity;
      (destruct (get_changed_key changed); [|reflexivity]);
      rewrite refresh_twice;
      match goal with
      | |- context [String.eqb ?a ?b] => destruct (String.eqb a b)
      end; reflexivity. }
  split.
  - intros Hcapch. rewrite Hstep, Hcapch. split.
    + intros st'. destruct (count changed "osd_mclock_profile").
      * destruct (set_config_defaults_from_profile (refresh (recompute st)))
          as [s| |] eqn:Hp; run_bind; try discriminate.
        intros [= <-]. apply profile_step_fields in Hp.
        destruct Hp as (Hc1 & Hc2 & Hr).
        cbn [refresh_registry with_registry osd_bandwidth_cost_per_io
             osd_bandwidth_capacity_per_shard client_registry cct_conf] in *.
        rewrite Hc1, Hc2, Hr, Hcost, Hcap, Hreg.
        rewrite update_from_config_absorbs. auto.
      * intros [= <-].
        cbn [refresh_registry with_registry osd_bandwidth_cost_per_io
             osd_bandwidth_capacity_per_shard client_registry cct_conf].
        rewrite Hcost, Hcap, Hreg. auto.
    + intros ->. eexists. split; [reflexivity|].
      cbn [refresh_registry with_registry cct_conf]. exact Hconf.
  - intros Hcapch Hprof. unfold handle_conf_change, capacity_changed in *.
    rewrite Hprof.
    apply orb_false_iff in Hcapch. destruct Hcapch as [Hcapch Hbw2].
    apply orb_false_iff in Hcapch. destruct Hcapch as [Hcapch Hbw1].
    rewrite Hcapch, Hbw1, Hbw2. cbn [orb]. cbv zeta.
    run_bind. fold conf. fold profile.
    split; [|split].
    + intros Hne. destruct (get_changed_key changed); [|reflexivity].
      destruct (String.eqb_spec profile "custom"); [contradiction|reflexivity].
    + intros Heq (key & Hin & Hch).
      destruct (get_changed_key_Some changed key Hin Hch) as [key' ->].
      rewrite Heq. cbn [String.eqb Ascii.eqb Bool.eqb].
      eexists. split; [reflexivity|]. repeat split.
    + intros Hnone. rewrite (get_changed_key_None changed Hnone). reflexivity.
Qed.

(** C10.  The constructor succeeds whenever [num_shards] is positive
    and the profile step does, whatever [osd_op_queue_cut_off] holds,
    and the cut-off it sets is the high constant for ["high"], the high
    or the low one by the parity of the random word for
    ["debug_random"], and the low one for every other text; so, the two
    constants being different, it is the high one exactly in the first
    two cases. *)
Theorem cutoff_priority_from_option (conf : C) (whoami_ num_shards_ shard_id_ : Z)
    (is_rotational_ init_perfcounter : bool) (registry0 : ClientRegistry)
    (immediate_prio random_word : Z) :
  let cut_off := get_val_string conf "osd_op_queue_cut_off" in
  let selected :=
    get_op_queue_cut_off CEPH_MSG_PRIO_LOW CEPH_MSG_PRIO_HIGH cut_off random_word in
  let built :=
    mClockScheduler_new default_min default_max CEPH_MSG_PRIO_LOW CEPH_MSG_PRIO_HIGH
      conf whoami_ num_shards_ shard_id_ is_rotational_ init_perfcounter
      registry0 immediate_prio random_word in
  (forall st : state, built = Ok st -> cutoff_priority st = selected)
  /\ (0 < num_shards_ ->
      0 < shard_id_
      \/ choose_profile (get_val_string conf "osd_mclock_profile") <> profile_invalid ->
      exists st : state, built = Ok st /\ cutoff_priority st = selected)
  /\ (cut_off = "high" -> selected = CEPH_MSG_PRIO_HIGH)
  /\ (cut_off = "debug_random" ->
      selected = if random_word mod 2 =? 0 then CEPH_MSG_PRIO_HIGH
                 else CEPH_MSG_PRIO_LOW)
  /\ (cut_off <> "high" -> cut_off <> "debug_random" ->
      selected = CEPH_MSG_PRIO_LOW)
  /\ (CEPH_MSG_PRIO_HIGH <> CEPH_MSG_PRIO_LOW ->
      (selected = CEPH_MSG_PRIO_HIGH <->
       cut_off = "high" \/ (cut_off = "debug_random" /\ random_word mod 2 = 0))).
Proof.
  intros cut_off selected built.
  assert (Hparity : (random_word mod 2 <? 1) = (random_word mod 2 =? 0)).
  { pose proof (Z.mod_pos_bound random_word 2 ltac:(lia)).
    destruct (Z.ltb_spec (random_word mod 2) 1),
             (Z.eqb_spec (random_word mod 2) 0); lia || reflexivity. }
  assert (Hbuilt : forall st : state, built = Ok st -> cutoff_priority st = selected).
  { intros st. subst built. unfold mClockScheduler_new.
    destruct (0 <? num_shards_); cbn [negb]; [|discriminate].
    unfold set_config_defaults_from_profile, set_osd_capacity_params_from_config.
    cbn [is_rotational].
    destruct is_rotational_;
      cbn [shard_id cct_conf with_capacity];
      (destruct (0 <? shard_id_);
       [ cbn; intros [= <-]; reflexivity
       | destruct (choose_profile _); cbn; intros [= <-]; reflexivity ]). }
  split; [exact Hbuilt|]. split; [|split; [|split; [|split]]].
  - intros Hn Hprofile. subst built. unfold mClockScheduler_new.
    destruct (Z.ltb_spec 0 num_shards_); [|lia]. cbn [negb].
    unfold set_config_defaults_from_profile, set_osd_capacity_params_from_config.
    cbn [is_rotational].
    destruct is_rotational_;
      cbn [shard_id cct_conf with_capacity];
      (destruct (Z.ltb_spec 0 shard_id_);
       [ eexists; split; [cbn; reflexivity | reflexivity]
       | destruct Hprofile as [Hs|Hp]; [lia|];
         destruct (choose_profile _);
         [ eexists; split; [cbn; reflexivity | reflexivity]
         | eexists; split; [cbn; reflexivity | reflexivity]
         | congruence ] ]).
  - intros Hhigh. subst selected. rewrite Hhigh. reflexivity.
  - intros Hrand. subst selected. rewrite Hrand. unfold get_op_queue_cut_off.
    cbn [String.eqb]. rewrite Hparity. reflexivity.
  - intros Hh Hr. subst selected. unfold get_op_queue_cut_off.
    destruct (String.eqb_spec cut_off "debug_random"); [contradiction|].
    destruct (String.eqb_spec cut_off "high"); [contradiction|reflexivity].
  - intros Hdiff. subst selected. unfold get_op_queue_cut_off. rewrite Hparity.
    destruct (String.eqb_spec cut_off "debug_random") as [Hr|Hr].
    + destruct (Z.eqb_spec (random_word mod 2) 0).
      * split; [intros _; right; split; assumption|reflexivity].
      * split; [intros Heq; congruence|].
        intros [Hh|[_ Hz]]; [|contradiction].
        rewrite Hr in Hh. discriminate.
    + destruct (String.eqb_spec cut_off "high") as [Hh|Hh].
      * split; [intros _; left; assumption|reflexivity].
      * split; [intros Heq; congruence|]. intros [Hx|[Hx _]]; contradiction.
Qed.

End ObserverProperties.


Lemma update_from_config_pure_witness :
  produced_entries
    (update_from_config 0 infinity (sample_conf "custom" "1" "0.6")
       157286400 sample_registry)
  = [ (client_keys,
       {| reservation := 94371840; weight := 1; limit := infinity |});
      (background_recovery_keys,
       {| reservation := 62914560; weight := 1; limit := infinity |});
      (background_best_effort_keys,
       {| reservation := 0; weight := 1; limit := 110100480 |}) ]
  /\ update_from_config 0 infinity (sample_conf "custom" "1" "0.6") 157286400
       (update_from_config 0 infinity (sample_conf "custom" "1" "0.6")
          157286400 sample_registry)
     = update_from_config 0 infinity (sample_conf "custom" "1" "0.6")
         157286400 sample_registry.
Proof.
  pose proof (update_from_config_pure 0 infinity
                (sample_conf "custom" "1" "0.6") 157286400 sample_registry)
    as (_ & _ & _ & Hidem).
  split; [vm_compute; reflexivity | exact Hidem].
Defined.

Lemma handle_conf_change_refreshes_witness :
  (exists st',
     handle_conf_change 0 infinity {["osd_mclock_max_capacity_iops_hdd"]}
       (sample_scheduler 0 "balanced") = Ok st'
     /\ osd_bandwidth_cost_per_io st' = (157286400 / 315)%float
     /\ osd_bandwidth_capacity_per_shard st' = 157286400%float
     /\ produced_entries (client_registry st')
        = [ (client_keys,
             {| reservation := 94371840; weight := 1; limit := infinity |});
            (background_recovery_keys,
             {| reservation := 62914560; weight := 1; limit := infinity |});
            (background_best_effort_keys,
             {| reservation := 0; weight := 1; limit := 110100480 |}) ])
  /\ handle_conf_change 0 infinity {["osd_mclock_scheduler_client_res"]}
       (sample_scheduler 0 "balanced")
     = Ok (sample_scheduler 0 "balanced")
  /\ (exists st',
        handle_conf_change 0 infinity {["osd_mclock_scheduler_client_res"]}
          (sample_scheduler 0 "custom") = Ok st'
        /\ produced_entries (client_registry st')
           = [ (client_keys,
                {| reservation := 94371840; weight := 1; limit := infinity |});
               (background_recovery_keys,
                {| reservation := 62914560; weight := 1; limit := infinity |});
               (background_best_effort_keys,
                {| reservation := 0; weight := 1; limit := 110100480 |}) ]).
Proof.
  pose proof (handle_conf_change_refreshes 0 infinity
                {["osd_mclock_max_capacity_iops_hdd"]}
                (sample_scheduler 0 "balanced")) as (Hcap & _).
  pose proof (handle_conf_change_refreshes 0 infinity
                {["osd_mclock_scheduler_client_res"]}
                (sample_scheduler 0 "balanced")) as (_ & Hqos).
  pose proof (handle_conf_change_refreshes 0 infinity
                {["osd_mclock_scheduler_client_res"]}
                (sample_scheduler 0 "custom")) as (_ & Hcustom).
  split; [|split].
  - destruct (Hcap ltac:(vm_compute; reflexivity)) as (Hfields & Hex).
    destruct (Hex ltac:(vm_compute; reflexivity)) as (st' & Heq & Hconf).
    destruct (Hfields st' Heq) as (Hcost & Hper & Hreg).
    exists st'. split; [exact Heq|].
    split; [rewrite Hcost; vm_compute; reflexivity|].
    split; [rewrite Hper; vm_compute; reflexivity|].
    rewrite Hreg, Hconf. vm_compute. reflexivity.
  - destruct Hqos as (Hother & _);
      [vm_compute; reflexivity | vm_compute; reflexivity |].
    apply Hother. vm_compute. discriminate.
  - destruct Hcustom as (_ & Hc & _);
      [vm_compute; reflexivity | vm_compute; reflexivity |].
    destruct Hc as (st' & Heq & Hreg & _); [vm_compute; reflexivity| |].
    { exists "osd_mclock_scheduler_client_res". split; [left; reflexivity|].
      apply elem_of_singleton. reflexivity. }
    exists st'. split; [exact Heq|]. rewrite Hreg. vm_compute. reflexivity.
Defined.

Lemma cutoff_priority_from_option_witness :
  (exists st : mClockScheduler (C := TextStore.t) (E := FifoQueue.t),
     mClockScheduler_new 0 infinity 64 196 (sample_conf_cut_off "high")
       0 1 0 true false sample_registry (2 ^ 32 - 1) 7 = Ok st
     /\ cutoff_priority st = 196)
  /\ (exists st : mClockScheduler (C := TextStore.t) (E := FifoQueue.t),
        mClockScheduler_new 0 infinity 64 196 (sample_conf_cut_off "medium")
          0 1 0 true false sample_registry (2 ^ 32 - 1) 7 = Ok st
        /\ cutoff_priority st = 64)
  /\ (exists st : mClockScheduler (C := TextStore.t) (E := FifoQueue.t),
        mClockScheduler_new 0 infinity 64 196 (sample_conf_cut_off "debug_random")
          0 1 0 true false sample_registry (2 ^ 32 - 1) 7 = Ok st
        /\ cutoff_priority st = 64).
Proof.
  pose proof (cutoff_priority_from_option 0 infinity 64 196
                (sample_conf_cut_off "high") 0 1 0 true false sample_registry
                (2 ^ 32 - 1) 7 (E := FifoQueue.t)) as (_ & Hhigh & _).
  pose proof (cutoff_priority_from_option 0 infinity 64 196
                (sample_conf_cut_off "medium") 0 1 0 true false sample_registry
                (2 ^ 32 - 1) 7 (E := FifoQueue.t)) as (_ & Hmedium & _).
  pose proof (cutoff_priority_from_option 0 infinity 64 196
                (sample_conf_cut_off "debug_random") 0 1 0 true false
                sample_registry (2 ^ 32 - 1) 7 (E := FifoQueue.t))
    as (_ & Hrandom & _).
  split; [|split].
  - apply Hhigh; [lia | right; vm_compute; discriminate].
  - apply Hmedium; [lia | right; vm_compute; discriminate].
  - apply Hrandom; [lia | right; vm_compute; discriminate].
Defined.

(** ** Further properties of the facade *)

Section FrontProperties.

Context {C E : Type} `{ConfigProxy C} `{TagEngine E} `{TagEngineGauges E}.

Abbreviation state := (mClockScheduler (C := C) (E := E)).

Lemma enqueue_front_eq (st : state) (item : item_t) :
  enqueue_front item st = enqueue_high (front_priority st item) item true st.
Proof.
  unfold enqueue_front, front_priority.
  destruct (decide (immediate = klass item)); [reflexivity|].
  destruct (cutoff_priority st <=? get_priority item); reflexivity.
Qed.

Lemma with_high_priority_same (st : state) :
  with_high_priority (high_priority st) st = st.
Proof. destruct st. reflexivity. Qed.

(** X1.  [enqueue_front] never hands an item to the dmclock queue: the
    item goes to the back of one bucket of the bypass, the bucket of
    [immediate_class_priority] for an [immediate] item, of its own
    priority when that reaches the cut-off, and of priority 0
    otherwise; every other bucket is left as it was. *)
Theorem enqueue_front_bypass (st : state) (item : item_t) :
  subqueue_sorted (high_priority st) ->
  let st' := enqueue_front item st in
  let p := front_priority st item in
  scheduler st' = scheduler st
  /\ bucket (high_priority st') p = bucket (high_priority st) p ++ [item]
  /\ (forall p', p' <> p ->
        subqueue_find p' (high_priority st') = subqueue_find p' (high_priority st))
  /\ (klass item = immediate -> p = immediate_class_priority st)
  /\ (klass item <> immediate ->
        p = if cutoff_priority st <=? get_priority item then get_priority item
            else 0).
Proof.
  intros Hs st' p. subst st' p. rewrite enqueue_front_eq.
  unfold enqueue_high. cbn [scheduler high_priority with_high_priority].
  split; [reflexivity|]. split; [apply bucket_at_same, Hs|].
  split; [intros p' Hne; apply subqueue_find_at_other, Hne|].
  unfold front_priority. split.
  - intros Hk. destruct (decide (immediate = klass item)); congruence.
  - intros Hk. destruct (decide (immediate = klass item)); congruence.
Qed.

(** X2.  When nothing queued in the bypass has a higher priority than
    the one [enqueue_front] uses for an item, the next [dequeue]
    returns that very item and leaves the scheduler exactly as it was
    before the item was queued. *)
Theorem enqueue_front_dequeue (st : state) (item : item_t) :
  subqueue_wf (high_priority st) ->
  (forall p' l', In (p', l') (high_priority st) -> p' <= front_priority st item) ->
  dequeue (enqueue_front item st) = Ok (WorkItem_item item, st).
Proof.
  intros [Hs Hne] Htop. rewrite enqueue_front_eq.
  unfold dequeue, enqueue_high. cbn [high_priority with_high_priority].
  set (p := front_priority st item) in *.
  assert (Hback : forall q, q = high_priority st -> with_high_priority q st = st)
    by (intros q ->; apply with_high_priority_same).
  destruct (high_priority st) as [|[p0 l0] rest] eqn:Hq.
  - cbn [subqueue_at]. unfold push_back. cbn [app pop_back].
    do 2 f_equal. apply Hback. reflexivity.
  - cbn [subqueue_at]. specialize (Htop p0 l0 (or_introl eq_refl)).
    destruct (Z.eqb_spec p0 p) as [->|Hp].
    + unfold push_back. rewrite pop_back_snoc.
      apply Forall_inv in Hne. cbn [snd] in Hne.
      destruct l0 as [|x l0]; [contradiction|].
      do 2 f_equal. apply Hback. reflexivity.
    + destruct (Z.ltb_spec p0 p); [|lia].
      unfold push_back. cbn [app pop_back].
      do 2 f_equal. apply Hback. reflexivity.
Qed.

(** X4.  [enqueue_high] adds the item to the bypass and nothing else:
    what the bypass will serve afterwards is what it would have served
    before together with the new item, each once. *)
Theorem enqueue_high_keeps_items (st : state) (p : Z) (item : item_t)
    (front : bool) :
  subqueue_sorted (high_priority st) ->
  Permutation (drain (high_priority (enqueue_high p item front st)))
    (item :: drain (high_priority st))
  /\ scheduler (enqueue_high p item front st) = scheduler st.
Proof.
  intros Hs. split; [|reflexivity].
  unfold enqueue_high. cbn [high_priority with_high_priority].
  rewrite (drain_split p (subqueue_at p _ _)) by (apply subqueue_at_sorted, Hs).
  rewrite (drain_split p (high_priority st) Hs).
  rewrite above_at, below_at, bucket_at_same by exact Hs.
  destruct front; unfold push_back, push_front.
  - rewrite rev_app_distr. cbn [rev app].
    symmetry. apply Permutation_middle.
  - cbn [rev]. rewrite <- app_assoc. cbn [app].
    rewrite (app_assoc (drain _) (rev _)).
    symmetry. rewrite (app_assoc (drain _) (rev _)).
    apply Permutation_middle.
Qed.

(** X5.  With a non-empty bypass [dequeue] takes exactly one item, the
    first of the order in which the bypass is served, and keeps the
    rest of that order and the invariant of the bypass. *)
Theorem dequeue_serves_first (st : state) :
  subqueue_wf (high_priority st) ->
  high_priority st <> [] ->
  exists x st',
    dequeue st = Ok (WorkItem_item x, st')
    /\ drain (high_priority st) = x :: drain (high_priority st')
    /\ subqueue_wf (high_priority st')
    /\ scheduler st' = scheduler st.
Proof.
  intros Hwf Hne.
  destruct (high_priority st) as [|[p l] rest] eqn:Hq; [contradiction|].
  assert (Hl : l <> []).
  { destruct Hwf as [_ Hf]. apply Forall_inv in Hf. exact Hf. }
  destruct (pop_back l) as [[init x]|] eqn:Hpop;
    [|apply pop_back_None in Hpop; contradiction].
  pose proof (pop_back_Some _ _ _ Hpop) as ->.
  exists x. eexists. split; [|split; [|split]].
  - unfold dequeue. rewrite Hq, Hpop. reflexivity.
  - cbn [high_priority with_high_priority]. unfold drain.
    cbn [map concat snd]. rewrite rev_app_distr. cbn [rev app].
    destruct init; cbn [map concat snd rev app]; reflexivity.
  - rewrite <- Hq in Hwf. apply (dequeue_wf st _ (WorkItem_item x) Hwf).
    unfold dequeue. rewrite Hq, Hpop. reflexivity.
  - destruct init; reflexivity.
Qed.


(** X13.  [enqueue] never fails an assertion, and it succeeds for every
    [immediate] item and every item whose priority reaches the cut-off,
    whatever the capacity parameters are; for any other item its
    outcome is undefined exactly when [osd_bandwidth_cost_per_io] does
    not truncate into 32 bits. *)
Theorem enqueue_outcome (st : state) (item : item_t) :
  (forall w, enqueue item st <> Abort w)
  /\ ((exists w, enqueue item st = Undefined w) <->
      klass item <> immediate
      /\ get_priority item < cutoff_priority st
      /\ Cxx.uint32_of_double (osd_bandwidth_cost_per_io st) = None).
Proof.
  unfold enqueue, calc_scaled_cost.
  destruct (decide (immediate = klass item)) as [Hk|Hk].
  { split; [discriminate|]. split; [intros [w Hw]; discriminate|].
    intros (Hne & _). congruence. }
  destruct (Z.leb_spec (cutoff_priority st) (get_priority item)).
  { split; [discriminate|]. split; [intros [w Hw]; discriminate|].
    intros (_ & Hlt & _). lia. }
  destruct (Cxx.uint32_of_double (osd_bandwidth_cost_per_io st)) as [io|]; cbn.
  - split; [discriminate|]. split; [intros [w Hw]; discriminate|].
    intros (_ & _ & Hn). discriminate.
  - split; [discriminate|]. split; [|eauto].
    intros _. repeat split; [congruence|assumption].
Qed.

(** X14.  What [dump] sends to the formatter is well nested; its
    [HighPriorityQueue] section names each bucket's priority once, in
    the order the buckets are served, with the bucket's length; the
    lengths add up to the number of items the bypass holds, and the
    gauge [high_priority_queue] is the number of buckets, not of
    items. *)
Theorem dump_reports_bypass (st : state) :
  depth_after 0 (dump st) = Some 0%nat
  /\ ints_named "priority" (dump st) = map fst (high_priority st)
  /\ ints_named "queue_size" (dump st)
     = map (fun e => Z.of_nat (length (snd e))) (high_priority st)
  /\ fold_right Z.add 0 (ints_named "queue_size" (dump st))
     = Z.of_nat (length (drain (high_priority st)))
  /\ ints_named "high_priority_queue" (dump st)
     = [Z.of_nat (length (ints_named "priority" (dump st)))].
Proof.
  unfold dump.
  assert (Hdepth : forall q d,
            depth_after (S d)
              (concat (map (fun e : Z * list item_t =>
                              [dump_int "priority" (fst e);
                               dump_int "queue_size" (Z.of_nat (length (snd e)))])
                           q) ++ [close_section]) = Some d).
  { induction q as [|e q IH]; intros d; [reflexivity|]. cbn. apply IH. }
  assert (Hprio : forall q,
            ints_named "priority"
              (concat (map (fun e : Z * list item_t =>
                              [dump_int "priority" (fst e);
                               dump_int "queue_size" (Z.of_nat (length (snd e)))])
                           q) ++ [close_section]) = map fst q).
  { induction q as [|e q IH]; [reflexivity|]. cbn. f_equal. apply IH. }
  assert (Hsize : forall q,
            ints_named "queue_size"
              (concat (map (fun e : Z * list item_t =>
                              [dump_int "priority" (fst e);
                               dump_int "queue_size" (Z.of_nat (length (snd e)))])
                           q) ++ [close_section])
            = map (fun e => Z.of_nat (length (snd e))) q).
  { induction q as [|e q IH]; [reflexivity|]. cbn. f_equal. apply IH. }
  assert (Hgauge : forall q,
            ints_named "high_priority_queue"
              (concat (map (fun e : Z * list item_t =>
                              [dump_int "priority" (fst e);
                               dump_int "queue_size" (Z.of_nat (length (snd e)))])
                           q) ++ [close_section]) = []).
  { induction q as [|e q IH]; [reflexivity|]. cbn. apply IH. }
  assert (Hsum : forall q : SubQueue,
            fold_right Z.add 0 (map (fun e => Z.of_nat (length (snd e))) q)
            = Z.of_nat (length (drain q))).
  { induction q as [|e q IH]; [reflexivity|].
    unfold drain in *. cbn [map concat fold_right].
    rewrite length_app, length_rev, IH. lia. }
  cbn -[concat map]. rewrite Hdepth, Hprio, Hsize, Hgauge, Hsum.
  rewrite length_map. repeat split; reflexivity.
Qed.

End FrontProperties.

(** ** Further properties of the observer, the constructor and the registry *)

Lemma count_tracked_inter (changed : gset string) (key : string) :
  In key get_tracked_conf_keys ->
  count (changed ∩ list_to_set get_tracked_conf_keys) key = count changed key.
Proof.
  intros Hin. unfold count. apply bool_decide_ext.
  rewrite elem_of_intersection, elem_of_list_to_set, list_elem_of_In. tauto.
Qed.

Lemma count_not_elem (changed : gset string) (key : string) :
  key ∉ changed -> count changed key = false.
Proof. intros Hn. unfold count. apply bool_decide_eq_false_2, Hn. Qed.

Section ObserverProperties.

Variables default_min default_max : float.
Variables CEPH_MSG_PRIO_LOW CEPH_MSG_PRIO_HIGH : Z.
Context {C E : Type} `{ConfigProxy C} `{TagEngine E}.

Abbreviation state := (mClockScheduler (C := C) (E := E)).
Abbreviation refresh := (refresh_registry default_min default_max).
Abbreviation recompute := set_osd_capacity_params_from_config.
Abbreviation observe := (handle_conf_change default_min default_max).







Lemma cct_conf_step (b : bool) (st : state) :
  cct_conf (if b then refresh (recompute st) else st) = cct_conf st
  /\ shard_id (if b then refresh (recompute st) else st) = shard_id st.
Proof.
  destruct b; [|split; reflexivity].
  unfold set_osd_capacity_params_from_config.
  destruct (is_rotational st); split; reflexivity.
Qed.


(** X9.  [handle_conf_change] looks at no key outside
    [get_tracked_conf_keys]: its outcome is the one for the tracked
    keys of the notification alone, and a notification without a
    tracked key leaves the scheduler as it was. *)
Theorem handle_conf_change_tracked_only (changed : gset string) (st : state) :
  observe changed st
  = observe (changed ∩ list_to_set get_tracked_conf_keys) st
  /\ ((forall key, In key get_tracked_conf_keys -> key ∉ changed) ->
      observe changed st = Ok st).
Proof.
  split.
  - unfold handle_conf_change, get_changed_key, qos_params.
    cbn [List.find].
    rewrite !count_tracked_inter by (cbn; tauto). reflexivity.
  - intros Hnone. unfold handle_conf_change, get_changed_key, qos_params.
    cbn [List.find].
    rewrite !count_not_elem by (apply Hnone; cbn; tauto).
    reflexivity.
Qed.

(** X10.  [handle_conf_change] fails only in the profile step: exactly
    when [osd_mclock_profile] is among the changed keys, the shard's id
    is not positive and the profile is none of the four names.  It has
    no undefined outcome. *)
Theorem handle_conf_change_fails_iff (changed : gset string) (st : state) :
  ((exists w, observe changed st = Abort w) <->
   count changed "osd_mclock_profile" = true
   /\ shard_id st <= 0
   /\ choose_profile (get_val_string (cct_conf st) "osd_mclock_profile")
      = profile_invalid)
  /\ (forall w, observe changed st <> Undefined w).
Proof.
  unfold handle_conf_change. cbv zeta.
  match goal with
  | |- context [set_config_defaults_from_profile ?s] =>
      assert (H2 : cct_conf s = cct_conf st /\ shard_id s = shard_id st)
        by (destruct (cct_conf_step
                        (count changed "osd_mclock_max_capacity_iops_hdd"
                         || count changed "osd_mclock_max_capacity_iops_ssd") st)
              as [Ha Hb];
            match goal with
            | |- cct_conf (if ?b then _ else ?s1) = _ /\ _ =>
                destruct (cct_conf_step b s1) as [Hc Hd]
            end; split; congruence);
      revert H2; generalize s; intros s2 [Hconf Hshard]
  end.
  destruct (count changed "osd_mclock_profile").
  - unfold set_config_defaults_from_profile. rewrite Hconf, Hshard.
    destruct (Z.ltb_spec 0 (shard_id st)).
    + run_bind. split.
      * split; [|intros (_ & Hle & _); lia].
        intros [w Hw]. revert Hw.
        destruct (get_changed_key changed); [destruct (String.eqb _ _)|];
          discriminate.
      * intros w.
        destruct (get_changed_key changed); [destruct (String.eqb _ _)|];
          discriminate.
    + destruct (choose_profile _) eqn:Hp; run_bind.
      * split; [split; [|intros (_ & _ & Hx); discriminate]|].
        -- intros [w Hw]. revert Hw.
           destruct (get_changed_key changed); [destruct (String.eqb _ _)|];
             discriminate.
        -- intros w.
           destruct (get_changed_key changed); [destruct (String.eqb _ _)|];
             discriminate.
      * split; [split; [|intros (_ & _ & Hx); discriminate]|].
        -- intros [w Hw]. revert Hw.
           destruct (get_changed_key changed); [destruct (String.eqb _ _)|];
             discriminate.
        -- intros w.
           destruct (get_changed_key changed); [destruct (String.eqb _ _)|];
             discriminate.
      * split; [|discriminate]. split; [|eauto].
        intros _. repeat split. lia.
  - run_bind. split.
    + split; [|intros (Hx & _); discriminate].
      intros [w Hw]. revert Hw.
      destruct (get_changed_key changed); [destruct (String.eqb _ _)|];
        discriminate.
    + intros w.
      destruct (get_changed_key changed); [destruct (String.eqb _ _)|];
        discriminate.
Qed.

(** X3.  In every state a shard goes through the bypass keeps its
    invariant, so [dequeue] never fails the assertion on an empty
    bucket: with a non-empty bypass it returns an item, and it fails
    only when the bypass is empty and the dmclock queue has nothing. *)
Theorem reachable_dequeue_safe (st : state) :
  reachable default_min default_max CEPH_MSG_PRIO_LOW CEPH_MSG_PRIO_HIGH st ->
  subqueue_wf (high_priority st)
  /\ (high_priority st <> [] ->
      exists item st', dequeue st = Ok (WorkItem_item item, st'))
  /\ (forall w, dequeue st = Abort w ->
        high_priority st = []
        /\ fst (pull_request (scheduler st)) = PullReq_none).
Proof.
  intros Hreach.
  pose proof (reachable_wf default_min default_max CEPH_MSG_PRIO_LOW
                CEPH_MSG_PRIO_HIGH st Hreach) as Hwf.
  split; [exact Hwf|]. unfold dequeue.
  destruct (high_priority st) as [|[p l] rest] eqn:Hq.
  - split; [contradiction|]. intros w.
    destruct (pull_request (scheduler st)) as [[|t|r] e]; try discriminate.
    intros _. split; reflexivity.
  - destruct Hwf as [_ Hne]. apply Forall_inv in Hne. cbn [snd] in Hne.
    destruct (pop_back l) as [[init x]|] eqn:Hpop;
      [|apply pop_back_None in Hpop; contradiction].
    split; [intros _; eauto|]. discriminate.
Qed.

(** X11.  The constructor fails exactly when [num_shards] is not
    positive, or the shard's id is not positive and the profile is none
    of the four names.  The scheduler it builds has an empty bypass, a
    fresh dmclock queue, the shard's parameters as given, and a
    registry refreshed from the store and the capacity it ends with. *)
Theorem constructor_outcome (conf : C) (whoami_ num_shards_ shard_id_ : Z)
    (is_rotational_ init_perfcounter : bool) (registry0 : ClientRegistry)
    (immediate_prio random_word : Z) :
  let built :=
    mClockScheduler_new default_min default_max CEPH_MSG_PRIO_LOW CEPH_MSG_PRIO_HIGH
      conf whoami_ num_shards_ shard_id_ is_rotational_ init_perfcounter
      registry0 immediate_prio random_word in
  ((exists w, built = Abort w) <->
   num_shards_ <= 0
   \/ (shard_id_ <= 0
       /\ choose_profile (get_val_string conf "osd_mclock_profile")
          = profile_invalid))
  /\ (forall w, built <> Undefined w)
  /\ (forall st : state, built = Ok st ->
        high_priority st = []
        /\ scheduler st
           = make_queue
               (get_val_double conf "osd_mclock_scheduler_anticipation_timeout")
        /\ num_shards st = num_shards_ /\ shard_id st = shard_id_
        /\ is_rotational st = is_rotational_
        /\ immediate_class_priority st = immediate_prio
        /\ client_registry st
           = update_from_config default_min default_max (cct_conf st)
               (osd_bandwidth_capacity_per_shard st) registry0).
Proof.
  intros built. subst built. unfold mClockScheduler_new.
  destruct (Z.ltb_spec 0 num_shards_); cbn [negb].
  2:{ split; [split; [intros _; left; lia | eauto]|].
      split; [discriminate|discriminate]. }
  unfold set_config_defaults_from_profile, set_osd_capacity_params_from_config.
  cbn [is_rotational].
  destruct is_rotational_; cbn [shard_id cct_conf with_capacity];
    (destruct (Z.ltb_spec 0 shard_id_);
     [ run_bind; split;
       [ split; [intros [w Hw]; discriminate | intros [Hx|[Hx _]]; lia]
       | split; [discriminate|];
         intros st [= <-]; repeat split ]
     | destruct (choose_profile _) eqn:Hp; run_bind;
       [ split;
         [ split; [intros [w Hw]; discriminate
                  | intros [Hx|[_ Hx]]; [lia|discriminate]]
         | split; [discriminate|]; intros st [= <-]; repeat split ]
       | split;
         [ split; [intros [w Hw]; discriminate
                  | intros [Hx|[_ Hx]]; [lia|discriminate]]
         | split; [discriminate|]; intros st [= <-]; repeat split ]
       | split;
         [ split; [intros _; right; split; [lia|reflexivity] | eauto]
         | split; [discriminate|discriminate] ] ] ]).
Qed.

End ObserverProperties.

Section CapacityProperties.

Context {C E : Type} `{ConfigProxy C} `{TagEngine E}.

(** X7.  A configured bandwidth of 0 (or 1) together with a configured
    IOPS capacity that is not above 1 (0, negative or not a number)
    counts as one byte per second at one IO per second: the cost per IO
    becomes 1, the capacity per shard 1 / num_shards, and every item is
    then charged its own declared cost, at least 1.  Only the options of
    the shard's device class are read. *)
Theorem capacity_floor (st : mClockScheduler (C := C) (E := E)) :
  let bandwidth :=
    get_val_size (cct_conf st)
      (if is_rotational st then "osd_mclock_max_sequential_bandwidth_hdd"
       else "osd_mclock_max_sequential_bandwidth_ssd") in
  let iops :=
    get_val_double (cct_conf st)
      (if is_rotational st then "osd_mclock_max_capacity_iops_hdd"
       else "osd_mclock_max_capacity_iops_ssd") in
  bandwidth <= 1 ->
  PrimFloat.ltb 1 iops = false ->
  let st' := set_osd_capacity_params_from_config st in
  osd_bandwidth_cost_per_io st' = 1%float
  /\ osd_bandwidth_capacity_per_shard st'
     = (1 / Cxx.double_of_unsigned (num_shards st))%float
  /\ (forall k, - 2 ^ 31 <= k < 2 ^ 31 -> calc_scaled_cost st' k = Ok (Z.max 1 k)).
Proof.
  intros bandwidth iops Hbw Hiops st'.
  assert (Hone : Cxx.double_of_unsigned 1 = 1%float) by reflexivity.
  assert (Hio : osd_bandwidth_cost_per_io st' = 1%float
                /\ osd_bandwidth_capacity_per_shard st'
                   = (1 / Cxx.double_of_unsigned (num_shards st))%float).
  { subst st' bandwidth iops. unfold set_osd_capacity_params_from_config.
    destruct (is_rotational st);
      cbn [osd_bandwidth_cost_per_io osd_bandwidth_capacity_per_shard with_capacity];
      unfold Cxx.max_double; rewrite Hiops;
      rewrite (Z.max_l 1 _ Hbw), Hone; split; reflexivity. }
  destruct Hio as [Hcost Hcap]. split; [exact Hcost|]. split; [exact Hcap|].
  intros k Hk. unfold calc_scaled_cost. rewrite Hcost.
  change (Cxx.uint32_of_double 1) with (Some 1).
  rewrite uint32_of_int_clamped by exact Hk. f_equal. lia.
Qed.

End CapacityProperties.

(** X12.  A refresh from the configuration reaches the clients through
    the default entry only: after [update_from_config] a client whose
    profile id is in the table of external clients still gets its
    table entry, unchanged, and every other client gets the entry
    computed from the options of the client class. *)
Theorem client_info_after_update {C : Type} `{ConfigProxy C}
    (default_min default_max : float) (conf : C) (cap : float)
    (reg : ClientRegistry) (id : client_profile_id_t) :
  get_info (update_from_config default_min default_max conf cap reg)
    {| class_id := client; client_profile_id := id |}
  = Ok (match external_client_infos reg !! id with
        | Some info => info
        | None =>
            {| reservation :=
                 get_res default_min cap
                   (get_val_double conf "osd_mclock_scheduler_client_res");
               weight := get_val_uint64 conf "osd_mclock_scheduler_client_wgt";
               limit :=
                 get_lim default_max cap
                   (get_val_double conf "osd_mclock_scheduler_client_lim") |}
        end).
Proof.
  unfold get_info, get_external_client.
  cbn [class_id client_profile_id update_from_config external_client_infos
       default_external_client_info].
  destruct (external_client_infos reg !! id); reflexivity.
Qed.

(** X15.  Whatever the profile, the defaults [set_config_defaults_from_profile]
    sets are those of the nine QoS options that [handle_conf_change]
    watches, each of them and nothing else; so a notification about
    these writes alone runs neither the capacity step nor the profile
    step of the observer. *)
Theorem profile_settings_keys (p : profile_t.t) :
  remove_dups (map fst (profile_settings p)) = qos_params
  /\ (forall key, In key (map fst (profile_settings p)) ->
        In key get_tracked_conf_keys
        /\ capacity_changed {[key]} = false
        /\ count {[key]} "osd_mclock_profile" = false).
Proof.
  split; [vm_compute; reflexivity|].
  intros key Hin. cbn [profile_settings map fst In] in Hin.
  repeat (destruct Hin as [<-|Hin];
          [split; [cbn; tauto | split; vm_compute; reflexivity]|]).
  contradiction.
Qed.

(** *** Instances of the statements above *)

Lemma sample_running_reachable :
  reachable 0 infinity 64 196 sample_running.
Proof.
  unfold sample_running.
  apply reachable_enqueue_front, reachable_enqueue_front.
  apply (reachable_new 0 infinity 64 196 (sample_conf "balanced" "1" "0.6")
           0 1 0 true false sample_registry (2 ^ 32 - 1) 7).
  vm_compute. reflexivity.
Qed.

Lemma enqueue_front_bypass_witness :
  scheduler (enqueue_front item_c sample_bypass) = scheduler sample_bypass
  /\ bucket (high_priority (enqueue_front item_c sample_bypass)) 0 = [item_c]
  /\ bucket (high_priority (enqueue_front item_a sample_bypass)) 200
     = [item_b; item_a; item_a].
Proof.
  pose proof (enqueue_front_bypass sample_bypass item_c (proj1 sample_bypass_wf))
    as (Hs & Hb & _).
  pose proof (enqueue_front_bypass sample_bypass item_a (proj1 sample_bypass_wf))
    as (_ & Ha & _).
  split; [exact Hs|]. split; [exact Hb | exact Ha].
Defined.

Lemma enqueue_front_dequeue_witness :
  dequeue (enqueue_front item_now sample_bypass)
  = Ok (WorkItem_item item_now, sample_bypass).
Proof.
  apply (enqueue_front_dequeue sample_bypass item_now sample_bypass_wf).
  intros p' l' Hin. cbn in Hin.
  destruct Hin as [[= <- <-]|[[= <- <-]|[]]]; vm_compute; intros Hc; discriminate Hc.
Defined.

Lemma reachable_dequeue_safe_witness :
  subqueue_wf (high_priority sample_running)
  /\ exists item st', dequeue sample_running = Ok (WorkItem_item item, st').
Proof.
  pose proof (reachable_dequeue_safe 0 infinity 64 196 sample_running
                sample_running_reachable) as (Hwf & Hsome & _).
  split; [exact Hwf|]. apply Hsome. vm_compute. intros Hc; discriminate Hc.
Defined.

Lemma enqueue_high_keeps_items_witness :
  Permutation
    (drain (high_priority (enqueue_high 100 item_now false sample_bypass)))
    (item_now :: [item_a; item_b; item_c]).
Proof.
  exact (proj1 (enqueue_high_keeps_items sample_bypass 100 item_now false
                  (proj1 sample_bypass_wf))).
Defined.

Lemma dequeue_serves_first_witness :
  exists x st',
    dequeue sample_bypass = Ok (WorkItem_item x, st')
    /\ [item_a; item_b; item_c] = x :: drain (high_priority st')
    /\ subqueue_wf (high_priority st')
    /\ scheduler st' = scheduler sample_bypass.
Proof.
  apply (dequeue_serves_first sample_bypass sample_bypass_wf).
  vm_compute. intros Hc; discriminate Hc.
Defined.



Lemma capacity_floor_witness :
  osd_bandwidth_cost_per_io
    (set_osd_capacity_params_from_config zero_capacity_scheduler) = 1%float
  /\ calc_scaled_cost
       (set_osd_capacity_params_from_config zero_capacity_scheduler) 512
     = Ok 512.
Proof.
  destruct (capacity_floor zero_capacity_scheduler) as (Hcost & _ & Hcharge);
    [vm_compute; intros Hc; discriminate Hc | vm_compute; reflexivity |].
  split; [exact Hcost|]. apply (Hcharge 512). lia.
Defined.

(** ** The names of the bucket index objects *)

Section BucketIndexProperties.

Import BucketIndex.

Lemma length_append (s t : string) :
  String.length (s ++ t)%string = (String.length s + String.length t)%nat.
Proof.
  induction s as [|a s IH]; [reflexivity|].
  change (S (String.length (s ++ t)%string)
          = S (String.length s + String.length t)%nat).
  now rewrite IH.
Qed.

Lemma substring_whole (s : string) (n : nat) :
  (String.length s <= n)%nat -> substring 0 n s = s.
Proof.
  revert n. induction s as [|a s IH]; intros n Hn.
  - destruct n; reflexivity.
  - destruct n as [|n]; cbn in Hn; [lia|]. cbn. f_equal. apply IH. lia.
Qed.

Lemma snprintf_fits (len : Z) (text : string) :
  Z.of_nat (String.length text) < len -> snprintf len text = text.
Proof. intros Hlen. apply substring_whole. lia. Qed.

Lemma c_str_length (s : string) :
  (String.length (c_str s) <= String.length s)%nat.
Proof.
  induction s as [|a s IH]; cbn; [lia|].
  destruct (Ascii.eqb a Ascii.zero); cbn; lia.
Qed.

Lemma decimal_length (fuel : nat) (n : Z) :
  (String.length (decimal fuel n) <= fuel)%nat.
Proof.
  revert n. induction fuel as [|fuel IH]; intros n; [cbn; lia|].
  cbn [decimal]. rewrite length_append. cbn [String.length].
  destruct (n <? 10); [cbn; lia|]. specialize (IH (n / 10)). lia.
Qed.

Lemma print_int_length (n : Z) : (String.length (print_int n) <= 11)%nat.
Proof.
  unfold print_int. destruct (n <? 0).
  - pose proof (decimal_length 10 (- n)). cbn [String.length]. lia.
  - pose proof (decimal_length 10 n). lia.
Qed.

Lemma digit_value (d : Z) :
  0 <= d < 10 -> Z.of_N (N_of_ascii (digit d)) - 48 = d.
Proof.
  intros Hd. unfold digit. rewrite N_ascii_embedding; lia.
Qed.

Lemma digit_is_digit (d : Z) : 0 <= d < 10 -> is_digit (digit d) = true.
Proof.
  intros Hd. unfold is_digit, digit. rewrite N_ascii_embedding by lia.
  apply andb_true_iff. split; apply N.leb_le; lia.
Qed.

Lemma digits_value_app (acc : Z) (s t : string) :
  digits_value acc (s ++ t)%string = digits_value (digits_value acc s) t.
Proof.
  revert acc. induction s as [|a s IH]; intros acc; [reflexivity|].
  simpl. apply IH.
Qed.

Lemma decimal_value (fuel : nat) (n : Z) :
  0 <= n < 10 ^ Z.of_nat fuel -> digits_value 0 (decimal fuel n) = n.
Proof.
  revert n. induction fuel as [|fuel IH]; intros n Hn.
  - cbn in *. lia.
  - cbn [decimal]. rewrite digits_value_app. cbn [digits_value].
    rewrite digit_value by (apply Z.mod_pos_bound; lia).
    rewrite Nat2Z.inj_succ, Z.pow_succ_r in Hn by lia.
    destruct (Z.ltb_spec n 10).
    + cbn [digits_value]. rewrite Z.mod_small by lia. lia.
    + rewrite IH.
      * pose proof (Z.div_mod n 10). lia.
      * split; [apply Z.div_pos; lia|]. apply Z.div_lt_upper_bound; lia.
Qed.

Lemma decimal_value_32 (n : Z) :
  0 <= n <= 2 ^ 31 -> digits_value 0 (decimal 10 n) = n.
Proof.
  intros Hn. apply decimal_value.
  change (10 ^ Z.of_nat 10) with 10000000000. lia.
Qed.

Lemma decimal_value_64 (n : Z) :
  0 <= n < 2 ^ 64 -> digits_value 0 (decimal 20 n) = n.
Proof.
  intros Hn. apply decimal_value.
  change (10 ^ Z.of_nat 20) with 100000000000000000000. lia.
Qed.

Lemma all_digits_app (s t : string) :
  all_digits (s ++ t)%string = all_digits s && all_digits t.
Proof.
  induction s as [|a s IH]; [reflexivity|].
  simpl. rewrite IH. apply andb_assoc.
Qed.

Lemma decimal_all_digits (fuel : nat) (n : Z) :
  all_digits (decimal fuel n) = true.
Proof.
  revert n. induction fuel as [|fuel IH]; intros n; [reflexivity|].
  cbn [decimal]. rewrite all_digits_app. cbn [all_digits].
  rewrite digit_is_digit by (apply Z.mod_pos_bound; lia).
  destruct (n <? 10); [reflexivity|]. rewrite IH. reflexivity.
Qed.

Lemma decimal_nonempty (fuel : nat) (n : Z) :
  exists c s, decimal (S fuel) n = String c s /\ is_digit c = true.
Proof.
  pose proof (decimal_all_digits (S fuel) n) as Hd.
  destruct (decimal (S fuel) n) as [|c s] eqn:He.
  - cbn [decimal] in He.
    destruct (if n <? 10 then EmptyString else decimal fuel (n / 10));
      discriminate He.
  - cbn in Hd. apply andb_true_iff in Hd. exists c, s. tauto.
Qed.

Lemma append_inj_l (s a b : string) : (s ++ a = s ++ b)%string -> a = b.
Proof. induction s as [|c s IH]; simpl; [auto|]. intros [= Heq]. auto. Qed.

Lemma digits_dot_split (p q a b : string) :
  all_digits p = true -> all_digits q = true ->
  (p ++ String "." a = q ++ String "." b)%string -> p = q /\ a = b.
Proof.
  revert q. induction p as [|c p IH]; intros [|d q] Hp Hq; simpl.
  - intros [= ->]. auto.
  - intros [= <- _]. cbn in Hq. discriminate.
  - intros [= -> _]. cbn in Hp. discriminate.
  - intros [= -> Heq]. cbn in Hp, Hq.
    apply andb_true_iff in Hp, Hq.
    destruct (IH q (proj2 Hp) (proj2 Hq) Heq) as [-> ->]. auto.
Qed.

Lemma digits_no_dot (p a : string) :
  all_digits (p ++ String "." a)%string = false.
Proof.
  induction p as [|c p IH]; simpl; [reflexivity|].
  rewrite IH. apply andb_false_r.
Qed.

Lemma to_int32_range (x : Z) : - 2 ^ 31 <= to_int32 x < 2 ^ 31.
Proof.
  unfold to_int32. pose proof (Z.mod_pos_bound x (2 ^ 32)).
  destruct (Z.ltb_spec (x mod 2 ^ 32) (2 ^ 31)); lia.
Qed.

Lemma to_int32_small (x : Z) : 0 <= x < 2 ^ 31 -> to_int32 x = x.
Proof.
  intros Hx. unfold to_int32. rewrite Z.mod_small by lia.
  destruct (Z.ltb_spec x (2 ^ 31)); lia.
Qed.

Lemma to_int32_inj (a b : Z) :
  0 <= a < 2 ^ 32 -> 0 <= b < 2 ^ 32 -> to_int32 a = to_int32 b -> a = b.
Proof.
  intros Ha Hb. unfold to_int32. rewrite !Z.mod_small by lia.
  destruct (Z.ltb_spec a (2 ^ 31)), (Z.ltb_spec b (2 ^ 31)); lia.
Qed.

Lemma print_int_all_digits (n : Z) :
  all_digits (print_int n) = negb (n <? 0).
Proof.
  unfold print_int. destruct (n <? 0); [reflexivity|].
  apply decimal_all_digits.
Qed.

Lemma String_tail (c : ascii) (s t : string) : String c s = String c t -> s = t.
Proof. intros [= ->]. reflexivity. Qed.

Lemma print_int_inj (a b : Z) :
  - 2 ^ 31 <= a < 2 ^ 31 -> - 2 ^ 31 <= b < 2 ^ 31 ->
  print_int a = print_int b -> a = b.
Proof.
  intros Ha Hb Heq.
  pose proof (print_int_all_digits a) as Hda.
  pose proof (print_int_all_digits b) as Hdb.
  rewrite Heq in Hda. rewrite Hda in Hdb. clear Hda.
  unfold print_int in Heq. revert Heq Hdb.
  destruct (Z.ltb_spec a 0), (Z.ltb_spec b 0); cbn [negb];
    intros Heq Hdb; try discriminate Hdb.
  - apply String_tail, (f_equal (digits_value 0)) in Heq.
    rewrite !decimal_value_32 in Heq by lia. lia.
  - apply (f_equal (digits_value 0)) in Heq.
    rewrite !decimal_value_32 in Heq by lia. lia.
Qed.

Lemma fold_insert_lookup {A : Type} (g : Z -> Z) (f : Z -> A) (l : list Z)
    (m : gmap Z A) (k : Z) :
  Forall (fun i => g i = i) l ->
  fold_left (fun objs i => <[g i := f i]> objs) l m !! k
  = if decide (k ∈ l) then Some (f k) else m !! k.
Proof.
  revert m. induction l as [|a l IH]; intros m Hg.
  - cbn. destruct (decide (k ∈ [])) as [Hin|]; [|reflexivity].
    apply elem_of_nil in Hin. contradiction.
  - apply Forall_cons in Hg as [Ha Hl]. cbn [fold_left].
    rewrite IH by exact Hl. rewrite Ha.
    destruct (decide (k ∈ l)) as [Hin|Hnin].
    + destruct (decide (k ∈ a :: l)) as [|Hn]; [reflexivity|].
      exfalso. apply Hn. apply elem_of_cons. now right.
    + destruct (decide (k = a)) as [->|Hne].
      * rewrite lookup_insert_eq.
        destruct (decide (a ∈ a :: l)) as [|Hn]; [reflexivity|].
        exfalso. apply Hn. apply elem_of_cons. now left.
      * rewrite lookup_insert_ne by congruence.
        destruct (decide (k ∈ a :: l)) as [Hin|]; [|reflexivity].
        apply elem_of_cons in Hin as [?|?]; contradiction.
Qed.

Lemma shard_object_text (base : string) (gen shard : Z) :
  shard_object base gen shard
  = if gen =? 0
    then (c_str base ++ "." ++ print_int (to_int32 shard))%string
    else (c_str base ++ "." ++ print_u64 gen ++ "."
          ++ print_int (to_int32 shard))%string.
Proof.
  unfold shard_object, bucket_obj_with_generation, bucket_obj_without_generation.
  pose proof (c_str_length base) as Hb.
  pose proof (print_int_length (to_int32 shard)) as Hs.
  pose proof (decimal_length 20 gen) as Hg.
  destruct (gen =? 0).
  - apply snprintf_fits. rewrite !length_append. cbn [String.length]. lia.
  - apply snprintf_fits. rewrite !length_append. cbn [String.length].
    unfold print_u64. lia.
Qed.

Lemma to_uint32_to_int32 (x : Z) :
  0 <= x < 2 ^ 32 -> to_uint32 (to_int32 x) = x.
Proof.
  intros Hx. unfold to_uint32, to_int32. rewrite (Z.mod_small x) by lia.
  destruct (Z.ltb_spec x (2 ^ 31)).
  - apply Z.mod_small. lia.
  - replace (x - 2 ^ 32) with (x + (-1) * 2 ^ 32) by lia.
    rewrite Z.mod_add by lia. apply Z.mod_small. lia.
Qed.

Lemma fold_add_entry (add_entry_ret : Z -> Z) (m : nat) (ret : Z)
    (calls : list ServiceCall) :
  fold_left
    (fun '(ret, calls) i => (add_entry_ret i, calls ++ [add_entry i]))
    (seqZ 0 (Z.of_nat m)) (ret, calls)
  = (match m with O => ret | S m' => add_entry_ret (Z.of_nat m') end,
     calls ++ map add_entry (seqZ 0 (Z.of_nat m))).
Proof.
  induction m as [|m IH].
  - cbn. now rewrite app_nil_r.
  - rewrite seqZ_S, fold_left_app, IH. cbn [fold_left].
    rewrite map_app, app_assoc. cbn [map]. reflexivity.
Qed.

Lemma fold_shards_lookup (base : string) (gen n : Z) (objs : gmap Z string)
    (k : Z) :
  n <= 2 ^ 31 ->
  fold_left (fun objs i => <[to_int32 i := shard_object base gen i]> objs)
    (seqZ 0 n) objs !! k
  = if decide (0 <= k < n) then Some (shard_object base gen k) else objs !! k.
Proof.
  intros Hn. rewrite (fold_insert_lookup to_int32).
  - destruct (decide (k ∈ seqZ 0 n)) as [Hin|Hin];
      rewrite elem_of_seqZ in Hin;
      destruct (decide (0 <= k < n)); try reflexivity; lia.
  - apply Forall_forall. intros i Hi. apply elem_of_seqZ in Hi.
    apply to_int32_small. lia.
Qed.

Lemma fold_ids_lookup (plain_id : string) (n : Z) (ids : gmap Z string) (k : Z) :
  fold_left (fun ids i => <[i := instance_id plain_id i]> ids) (seqZ 0 n) ids !! k
  = if decide (0 <= k < n) then Some (instance_id plain_id k) else ids !! k.
Proof.
  rewrite (fold_insert_lookup (fun i => i)).
  - destruct (decide (k ∈ seqZ 0 n)) as [Hin|Hin];
      rewrite elem_of_seqZ in Hin;
      destruct (decide (0 <= k < n)); try reflexivity; lia.
  - apply Forall_forall. intros i _. reflexivity.
Qed.

(** X16.  The buffers are always large enough: a shard object's name is
    never truncated.  It is the base up to its first NUL, a dot, the
    generation and a dot unless the generation is 0, and the shard
    number, at most 33 characters more than the base; an instance id is
    the plain id, a colon and the shard number. *)
Theorem names_not_truncated (base plain_id : string) (gen shard : Z) :
  shard_object base gen shard
  = (if gen =? 0
     then (c_str base ++ "." ++ print_int (to_int32 shard))%string
     else (c_str base ++ "." ++ print_u64 gen ++ "."
           ++ print_int (to_int32 shard))%string)
  /\ (String.length (shard_object base gen shard) <= String.length base + 33)%nat
  /\ instance_id plain_id shard = (plain_id ++ ":" ++ print_int shard)%string.
Proof.
  pose proof (c_str_length base) as Hb.
  pose proof (print_int_length (to_int32 shard)) as Hs.
  pose proof (print_int_length shard) as Hi.
  pose proof (decimal_length 20 gen) as Hg.
  split; [apply shard_object_text|]. split.
  - rewrite shard_object_text.
    destruct (gen =? 0); rewrite !length_append; cbn [String.length];
      unfold print_u64; lia.
  - unfold instance_id. f_equal. apply snprintf_fits.
    rewrite length_append. cbn [String.length]. lia.
Qed.

(** X17.  Asked for all shards of a sharded bucket,
    [get_bucket_index_objects] sets exactly the keys 0 .. num_shards - 1,
    each to the name of its shard, and leaves every other entry of the
    map as it was; for an unsharded bucket it sets key 0 alone, to the
    base itself. *)
Theorem get_bucket_index_objects_all (base : string) (n gen : Z)
    (objs : gmap Z string) (shard_id k : Z) :
  0 <= n <= 2 ^ 31 -> shard_id < 0 ->
  get_bucket_index_objects base n gen objs shard_id !! k
  = if decide (n = 0)
    then (if decide (k = 0) then Some base else objs !! k)
    else (if decide (0 <= k < n) then Some (shard_object base gen k)
          else objs !! k).
Proof.
  intros Hn Hs. unfold get_bucket_index_objects.
  destruct (Z.eqb_spec n 0) as [->|Hn0].
  - destruct (decide (0 = 0)); [|contradiction].
    destruct (decide (k = 0)) as [->|Hk];
      [apply lookup_insert_eq | apply lookup_insert_ne; congruence].
  - destruct (decide (n = 0)); [contradiction|].
    destruct (Z.ltb_spec shard_id 0); [|lia].
    apply fold_shards_lookup. lia.
Qed.

(** X18.  For an unsharded bucket [get_bucket_index_objects] sets key 0
    to the base whatever shard is asked for.  For a sharded bucket,
    asked for one shard, it sets that key alone, or nothing when the
    shard is beyond [num_shards].  The bound is inclusive: shard number
    [num_shards] itself gets an entry, which the request for all shards
    never produces, while for every smaller shard the two requests give
    the same name. *)
Theorem get_bucket_index_objects_one (base : string) (n gen : Z)
    (objs : gmap Z string) (shard_id : Z) :
  0 <= n <= 2 ^ 31 -> 0 <= shard_id < 2 ^ 31 ->
  let one := get_bucket_index_objects base n gen objs shard_id in
  let all := get_bucket_index_objects base n gen objs (-1) in
  (n = 0 -> one = <[0 := base]> objs /\ all = one)
  /\ (0 < n -> shard_id <= n ->
      one = <[shard_id := shard_object base gen shard_id]> objs)
  /\ (0 < n -> n < shard_id -> one = objs)
  /\ (0 < n -> shard_id < n -> one !! shard_id = all !! shard_id)
  /\ (0 < n -> shard_id = n ->
      one !! shard_id = Some (shard_object base gen n)
      /\ all !! shard_id = objs !! shard_id).
Proof.
  intros Hn Hs one all.
  split.
  { intros ->. subst one all. split; reflexivity. }
  assert (Hone : 0 < n ->
                 one = if decide (shard_id <= n)
                       then <[shard_id := shard_object base gen shard_id]> objs
                       else objs).
  { intros Hpos. subst one. unfold get_bucket_index_objects, to_uint32.
    destruct (Z.eqb_spec n 0); [lia|].
    destruct (Z.ltb_spec shard_id 0); [lia|].
    rewrite Z.mod_small by lia.
    destruct (Z.ltb_spec n shard_id), (decide (shard_id <= n));
      try reflexivity; lia. }
  assert (Hall : 0 < n -> forall k, all !! k
                 = if decide (0 <= k < n) then Some (shard_object base gen k)
                   else objs !! k).
  { intros Hpos k. subst all. unfold get_bucket_index_objects.
    destruct (Z.eqb_spec n 0); [lia|]. cbn [Z.ltb Z.compare].
    apply fold_shards_lookup. lia. }
  split; [|split; [|split]].
  - intros Hpos Hle. rewrite (Hone Hpos).
    destruct (decide (shard_id <= n)); [reflexivity|lia].
  - intros Hpos Hlt. rewrite (Hone Hpos).
    destruct (decide (shard_id <= n)); [lia|reflexivity].
  - intros Hpos Hlt. rewrite (Hone Hpos), (Hall Hpos).
    destruct (decide (shard_id <= n)); [|lia].
    destruct (decide (0 <= shard_id < n)); [|lia]. apply lookup_insert_eq.
  - intros Hpos ->. rewrite (Hone Hpos), (Hall Hpos).
    destruct (decide (n <= n)); [|lia].
    destruct (decide (0 <= n < n)); [lia|].
    split; [apply lookup_insert_eq | reflexivity].
Qed.

(** X19.  For one bucket the names are unambiguous: two shard objects
    have the same name only if they have the same generation and the
    same shard number, although generation 0 is left out of the name. *)
Theorem shard_object_injective (base : string) (g1 g2 s1 s2 : Z) :
  0 <= g1 < 2 ^ 64 -> 0 <= g2 < 2 ^ 64 ->
  0 <= s1 < 2 ^ 32 -> 0 <= s2 < 2 ^ 32 ->
  shard_object base g1 s1 = shard_object base g2 s2 ->
  g1 = g2 /\ s1 = s2.
Proof.
  intros Hg1 Hg2 Hs1 Hs2. rewrite !shard_object_text.
  pose proof (to_int32_range s1) as Hr1.
  pose proof (to_int32_range s2) as Hr2.
  assert (Hdot : forall g a s,
            print_int s <> (print_u64 g ++ String "." a)%string).
  { intros g a s Heq.
    pose proof (print_int_all_digits s) as Hd. rewrite Heq in Hd.
    rewrite digits_no_dot in Hd.
    destruct (decimal_nonempty 19 g) as (c & t & Hc & Hdig).
    unfold print_u64 in Heq. rewrite Hc in Heq.
    unfold print_int in Heq. destruct (s <? 0); [|discriminate Hd].
    simpl in Heq. injection Heq as <- _. discriminate Hdig. }
  destruct (Z.eqb_spec g1 0) as [->|Hn1], (Z.eqb_spec g2 0) as [->|Hn2];
    intros Heq; apply append_inj_l, append_inj_l in Heq.
  - split; [reflexivity|].
    apply to_int32_inj; [lia|lia|]. apply print_int_inj; assumption.
  - exfalso. exact (Hdot _ _ _ Heq).
  - exfalso. symmetry in Heq. exact (Hdot _ _ _ Heq).
  - apply digits_dot_split in Heq as [Hg Hs];
      [|apply decimal_all_digits|apply decimal_all_digits].
    apply (f_equal (digits_value 0)) in Hg. unfold print_u64 in Hg.
    rewrite !decimal_value_64 in Hg by lia.
    split; [exact Hg|].
    apply to_int32_inj; [lia|lia|]. apply print_int_inj; assumption.
Qed.

(** X20.  The object [get_bucket_index_object] names for an object key
    is the one of the shard it reports, as the overload for a shard
    names it and as the request for all shards lists it under that
    key. *)
Theorem index_object_for_key_agrees (ENOTSUP Mod : Z)
    (bucket_shard_index : string -> Z -> Z) (base : string) (n gen : Z)
    (obj_key bucket_obj : string) (shard_id : Z) :
  0 < n <= 2 ^ 31 ->
  0 <= bucket_shard_index obj_key n < n ->
  let sid := bucket_shard_index obj_key n in
  get_bucket_index_object_for_key ENOTSUP Mod bucket_shard_index base Mod n gen
    obj_key bucket_obj (Some shard_id)
  = (0, get_bucket_index_object base n gen sid, Some sid)
  /\ get_bucket_index_objects base n gen ∅ (-1) !! sid
     = Some (get_bucket_index_object base n gen sid)
  /\ get_bucket_index_objects base n gen ∅ sid
     = {[ sid := get_bucket_index_object base n gen sid ]}.
Proof.
  intros Hn Hsid sid. subst sid.
  set (sid := bucket_shard_index obj_key n) in *.
  assert (Hobj : get_bucket_index_object base n gen sid
                 = shard_object base gen sid).
  { unfold get_bucket_index_object, to_uint32.
    destruct (Z.eqb_spec n 0); [lia|]. rewrite Z.mod_small by lia. reflexivity. }
  rewrite Hobj. split; [|split].
  - unfold get_bucket_index_object_for_key. rewrite Z.eqb_refl.
    destruct (Z.eqb_spec n 0); [lia|]. fold sid. cbn [fmap option_fmap option_map].
    rewrite to_int32_small by lia. reflexivity.
  - unfold get_bucket_index_objects.
    destruct (Z.eqb_spec n 0); [lia|]. cbn [Z.ltb Z.compare].
    rewrite fold_shards_lookup by lia.
    destruct (decide (0 <= sid < n)); [reflexivity|lia].
  - unfold get_bucket_index_objects, to_uint32.
    destruct (Z.eqb_spec n 0); [lia|].
    destruct (Z.ltb_spec sid 0); [lia|].
    destruct (Z.ltb_spec n sid); [lia|].
    rewrite Z.mod_small by lia. reflexivity.
Qed.

(** X21.  [open_bucket_index] succeeds exactly when the pool could be
    opened and the bucket has an id; a failure, the pool's or [-EIO]
    for an empty id, leaves both maps untouched.  On success, with
    [num_shards] below 2^31 the two maps receive entries under the same
    keys; from 2^31 on, [num_shards] is negative as the [int] that
    [get_bucket_instance_ids] takes, and the map of instance ids is
    left as it was. *)
Theorem open_bucket_index_outcome (EIO : Z) (pool_ret : Z)
    (name bucket_id : string) (_shard_id : option Z) (n gen : Z)
    (objs ids : gmap Z string) :
  0 < EIO -> 0 <= n < 2 ^ 32 ->
  (forall k, is_Some (objs !! k) <-> is_Some (ids !! k)) ->
  let out :=
    open_bucket_index EIO pool_ret name bucket_id _shard_id n gen objs (Some ids) in
  (out.1.1 = 0 <-> 0 <= pool_ret /\ bucket_id <> EmptyString)
  /\ (out.1.1 <> 0 ->
      out = ((if pool_ret <? 0 then pool_ret else - EIO), objs, Some ids)
      /\ out.1.1 < 0)
  /\ (out.1.1 = 0 ->
      exists ids', out.2 = Some ids'
        /\ (n < 2 ^ 31 ->
            forall k, is_Some (out.1.2 !! k) <-> is_Some (ids' !! k))
        /\ (2 ^ 31 <= n -> ids' = ids)).
Proof.
  intros HEIO Hn Hkeys out. subst out.
  unfold open_bucket_index, open_bucket_index_base.
  destruct (Z.ltb_spec pool_ret 0) as [Hp|Hp].
  { destruct (Z.ltb_spec pool_ret 0); [|lia]. cbn [fst snd].
    split; [split; [lia|intros [? _]; lia]|].
    split; [intros _; split; [reflexivity|exact Hp]|lia]. }
  destruct (decide (bucket_id = EmptyString)) as [Hb|Hb].
  { destruct (Z.ltb_spec (- EIO) 0); [|lia]. cbn [fst snd].
    split; [split; [lia|intros [_ ?]; contradiction]|].
    split; [intros _; split; [reflexivity|lia]|lia]. }
  cbn [Z.ltb Z.compare fst snd fmap option_fmap option_map].
  split; [split; [auto|reflexivity]|].
  split; [intros Hne; contradiction|].
  intros _. eexists. split; [reflexivity|]. split.
  - intros Hsmall k. unfold get_bucket_index_objects, get_bucket_instance_ids.
    rewrite to_int32_small by lia.
    destruct (Z.eqb_spec n 0) as [Hn0|Hn0].
    { rewrite !lookup_insert_is_Some. rewrite Hkeys. reflexivity. }
    destruct (default (-1) _shard_id <? 0).
    { rewrite fold_shards_lookup, fold_ids_lookup by lia.
      destruct (decide (0 <= k < n)); [split; eauto|apply Hkeys]. }
    destruct (n <? default (-1) _shard_id); [apply Hkeys|].
    rewrite !lookup_insert_is_Some. rewrite Hkeys. reflexivity.
  - intros Hbig. unfold get_bucket_instance_ids.
    assert (Hneg : to_int32 n < 0).
    { unfold to_int32. rewrite Z.mod_small by lia.
      destruct (Z.ltb_spec n (2 ^ 31)); lia. }
    destruct (Z.eqb_spec (to_int32 n) 0); [lia|].
    destruct (Z.ltb_spec (default (-1) _shard_id) 0).
    + rewrite seqZ_nil by lia. reflexivity.
    + destruct (Z.ltb_spec (to_int32 n) (default (-1) _shard_id)); [reflexivity|lia].
Qed.

(** X22.  [open_bucket_index_shard] by object key succeeds exactly when
    the pool could be opened, the bucket has an id and the hash type is
    [Mod]; a failure leaves the oid and the shard id of the caller
    untouched.  On success the shard overload, asked for the shard that
    was reported, names the same object, also for an unsharded bucket,
    where the shard reported is -1. *)
Theorem open_bucket_index_shard_agrees (EIO ENOTSUP Mod : Z)
    (bucket_shard_index : string -> Z -> Z) (pool_ret : Z) (bucket_id : string)
    (hash_type n gen : Z) (obj_key oid : string) (shard_id : Z) :
  0 < EIO -> 0 < ENOTSUP ->
  0 <= bucket_shard_index obj_key n < 2 ^ 32 ->
  let out :=
    open_bucket_index_shard_for_key EIO ENOTSUP Mod bucket_shard_index pool_ret
      bucket_id hash_type n gen obj_key oid (Some shard_id) in
  (out.1.1 = 0 <->
   0 <= pool_ret /\ bucket_id <> EmptyString /\ hash_type = Mod)
  /\ (out.1.1 <> 0 -> out.1.1 < 0 /\ out.1.2 = oid /\ out.2 = Some shard_id)
  /\ (out.1.1 = 0 ->
      exists s, out.2 = Some s
        /\ open_bucket_index_shard EIO pool_ret bucket_id n gen s oid
           = (0, out.1.2)).
Proof.
  intros HEIO HENOTSUP Hsid out. subst out.
  unfold open_bucket_index_shard_for_key, open_bucket_index_shard,
    open_bucket_index_base.
  destruct (Z.ltb_spec pool_ret 0) as [Hp|Hp].
  { destruct (Z.ltb_spec pool_ret 0); [|lia]. cbn [fst snd].
    split; [split; [lia|intros [? _]; lia]|]. split; [auto|lia]. }
  destruct (decide (bucket_id = EmptyString)) as [Hb|Hb].
  { destruct (Z.ltb_spec (- EIO) 0); [|lia]. cbn [fst snd].
    split; [split; [lia|intros (_ & ? & _); contradiction]|].
    split; [intros _; repeat split; lia|lia]. }
  cbn [Z.ltb Z.compare]. unfold get_bucket_index_object_for_key.
  destruct (Z.eqb_spec hash_type Mod) as [Hh|Hh].
  2:{ destruct (Z.ltb_spec (- ENOTSUP) 0); [|lia]. cbn [fst snd].
      split; [split; [lia|intros (_ & _ & ?); contradiction]|].
      split; [intros _; repeat split; lia|lia]. }
  unfold get_bucket_index_object.
  destruct (Z.eqb_spec n 0) as [Hn|Hn];
    cbn [Z.ltb Z.compare fst snd fmap option_fmap option_map].
  - split; [split; [auto|reflexivity]|]. split; [intros Hne; contradiction|].
    intros _. eexists. split; reflexivity.
  - split; [split; [auto|reflexivity]|]. split; [intros Hne; contradiction|].
    intros _. eexists. split; [reflexivity|].
    rewrite to_uint32_to_int32 by exact Hsid. reflexivity.
Qed.

(** X23.  When the datasync flag changes on a bucket whose last log is
    in the index, [handle_overwrite] first stops or starts the bilog
    and, unless that fails, adds a datalog entry for every shard in
    turn, whatever those calls return; its result is what the call for
    the last shard returned, so the failure of an earlier shard is not
    reported. *)
Theorem handle_overwrite_reports_last_shard (ENOTSUP InIndex : Z)
    (index_layout : Type) (rgw_num_shards : index_layout -> Z)
    (new_sync_enabled old_sync_enabled : bool)
    (logs : list (Z * index_layout)) (bilog : Z * index_layout)
    (log_stop_ret log_start_ret : Z) (add_entry_ret : Z -> Z) :
  old_sync_enabled <> new_sync_enabled ->
  last logs = Some bilog ->
  fst bilog = InIndex ->
  let ret := if new_sync_enabled then log_start_ret else log_stop_ret in
  let call := if new_sync_enabled then log_start else log_stop in
  let shards_num := rgw_num_shards (snd bilog) in
  handle_overwrite ENOTSUP InIndex index_layout rgw_num_shards
    new_sync_enabled old_sync_enabled logs log_stop_ret log_start_ret
    add_entry_ret
  = if ret <? 0 then (ret, [call])
    else (if 0 <? shards_num then add_entry_ret (shards_num - 1) else ret,
          call :: map add_entry (seqZ 0 shards_num)).
Proof.
  intros Hflag Hlast Htype ret call shards_num.
  unfold handle_overwrite. rewrite Hlast, Htype, Z.eqb_refl. cbn [negb].
  destruct (Bool.eqb old_sync_enabled new_sync_enabled) eqn:Heq;
    [apply Bool.eqb_prop in Heq; contradiction|].
  fold shards_num.
  assert (Hfold : forall r c,
            fold_left
              (fun '(ret, calls) i => (add_entry_ret i, calls ++ [add_entry i]))
              (seqZ 0 shards_num) (r, [c])
            = (if 0 <? shards_num then add_entry_ret (shards_num - 1) else r,
               c :: map add_entry (seqZ 0 shards_num))).
  { intros r c. destruct (Z.ltb_spec 0 shards_num) as [Hpos|Hneg].
    - rewrite <- (Z2Nat.id shards_num) at 1 3 by lia.
      rewrite fold_add_entry.
      destruct (Z.to_nat shards_num) as [|m] eqn:Hm; [lia|].
      cbn [app]. do 2 f_equal. lia.
    - rewrite seqZ_nil by lia. reflexivity. }
  subst ret call.
  destruct new_sync_enabled; cbn [negb].
  - destruct (log_start_ret <? 0); [reflexivity|apply Hfold].
  - destruct (log_stop_ret <? 0); [reflexivity|apply Hfold].
Qed.

(** *** Instances of the statements above *)

Lemma get_bucket_index_objects_all_witness :
  get_bucket_index_objects ".dir.b1" 3 0 ∅ (-1) !! 2 = Some ".dir.b1.2"%string
  /\ get_bucket_index_objects ".dir.b1" 3 7 ∅ (-1) !! 3 = None.
Proof.
  split.
  - exact (get_bucket_index_objects_all ".dir.b1" 3 0 ∅ (-1) 2
             ltac:(lia) ltac:(lia)).
  - exact (get_bucket_index_objects_all ".dir.b1" 3 7 ∅ (-1) 3
             ltac:(lia) ltac:(lia)).
Defined.

Lemma get_bucket_index_objects_one_witness :
  get_bucket_index_objects ".dir.b1" 3 0 ∅ 3 !! 3 = Some ".dir.b1.3"%string
  /\ get_bucket_index_objects ".dir.b1" 3 0 ∅ (-1) !! 3 = None
  /\ get_bucket_index_objects ".dir.b1" 3 0 ∅ 4 = ∅
  /\ get_bucket_index_objects ".dir.b1" 0 0 ∅ 5 = {[ 0 := ".dir.b1"%string ]}.
Proof.
  pose proof (get_bucket_index_objects_one ".dir.b1" 3 0 ∅ 3
                ltac:(lia) ltac:(lia)) as (_ & _ & _ & _ & Hedge).
  pose proof (get_bucket_index_objects_one ".dir.b1" 3 0 ∅ 4
                ltac:(lia) ltac:(lia)) as (_ & _ & Hbeyond & _).
  pose proof (get_bucket_index_objects_one ".dir.b1" 0 0 ∅ 5
                ltac:(lia) ltac:(lia)) as (Hplain & _).
  destruct (Hedge ltac:(lia) eq_refl) as [Hone Hall].
  split; [exact Hone|]. split; [exact Hall|].
  split; [apply Hbeyond; lia|]. exact (proj1 (Hplain eq_refl)).
Defined.

Lemma shard_object_injective_witness :
  shard_object ".dir.b1" 5 2 = ".dir.b1.5.2"%string /\ (5 = 5 /\ 2 = 2).
Proof.
  split; [reflexivity|].
  apply (shard_object_injective ".dir.b1" 5 5 2 2); [lia|lia|lia|lia|reflexivity].
Defined.

Lemma index_object_for_key_agrees_witness :
  get_bucket_index_object_for_key 95 0 sample_shard_index ".dir.b1" 0 4 0
    "photo.jpg" EmptyString (Some 0)
  = (0, ".dir.b1.1"%string, Some 1)
  /\ get_bucket_index_objects ".dir.b1" 4 0 ∅ (-1) !! 1 = Some ".dir.b1.1"%string.
Proof.
  pose proof (index_object_for_key_agrees 95 0 sample_shard_index ".dir.b1" 4 0
                "photo.jpg" EmptyString 0 ltac:(lia)
                ltac:(vm_compute; split; [intros Hc; discriminate Hc|reflexivity]))
    as (Hkey & Hall & _).
  split; [exact Hkey | exact Hall].
Defined.

Lemma open_bucket_index_outcome_witness :
  open_bucket_index 5 0 "photos" "b1" None 2 0 ∅ (Some ∅)
  = (0, {[0 := ".dir.b1.0"%string; 1 := ".dir.b1.1"%string]},
     Some {[0 := "photos:b1:0"%string; 1 := "photos:b1:1"%string]})
  /\ (open_bucket_index 5 0 "photos" EmptyString None 2 0 ∅ (Some ∅)).1.1 < 0
  /\ (exists ids',
        (open_bucket_index 5 0 "photos" "b1" (Some 5) 4294967295 0 ∅ (Some ∅)).2
        = Some ids' /\ ids' = ∅).
Proof.
  split; [vm_compute; reflexivity|].
  pose proof (open_bucket_index_outcome 5 0 "photos" EmptyString None 2 0 ∅ ∅
                ltac:(lia) ltac:(lia) ltac:(intros k; reflexivity))
    as (_ & Hfail & _).
  pose proof (open_bucket_index_outcome 5 0 "photos" "b1" (Some 5) 4294967295 0 ∅ ∅
                ltac:(lia) ltac:(lia) ltac:(intros k; reflexivity))
    as (_ & _ & Hok).
  split; [apply Hfail; vm_compute; intros Hc; discriminate Hc|].
  destruct (Hok eq_refl) as (ids' & Hids & _ & Hbig).
  exists ids'. split; [exact Hids|]. apply Hbig. lia.
Defined.

Lemma open_bucket_index_shard_agrees_witness :
  exists s,
    (open_bucket_index_shard_for_key 5 95 0 sample_shard_index 0 "b1" 0 4 0
       "photo.jpg" EmptyString (Some 0)).2 = Some s
    /\ open_bucket_index_shard 5 0 "b1" 4 0 s EmptyString
       = (0, ".dir.b1.1"%string).
Proof.
  pose proof (open_bucket_index_shard_agrees 5 95 0 sample_shard_index 0 "b1"
                0 4 0 "photo.jpg" EmptyString 0 ltac:(lia) ltac:(lia)
                ltac:(vm_compute; split; [intros Hc; discriminate Hc|reflexivity]))
    as (_ & _ & Hok).
  exact (Hok eq_refl).
Defined.

Lemma handle_overwrite_reports_last_shard_witness :
  handle_overwrite 95 1 Z (fun num_shards => num_shards) true false [(1, 3)]
    0 0 sample_add_entry_ret
  = (0, [log_start; add_entry 0; add_entry 1; add_entry 2]).
Proof.
  exact (handle_overwrite_reports_last_shard 95 1 Z (fun num_shards => num_shards)
           true false [(1, 3)] (1, 3) 0 0 sample_add_entry_ret
           ltac:(discriminate) eq_refl eq_refl).
Defined.

End BucketIndexProperties.
